(** * Maryland county aggregation: a shallow embedding of
    [Scripts/build_md_county_aggregated_results.py]

    The development follows the script top-down: the text helpers of the
    Python [str] type that the script calls, insertion-ordered dictionaries,
    the name normalisers, the county resolver, the competitiveness scale and
    the aggregation loop of [build].

    Modelling conventions.
    - A Python [str] is a [string]; the input text is taken to be ASCII, so
      [str.lower], [str.upper] and the white-space class are their ASCII
      restrictions.
    - A Python [dict] (and [defaultdict]) is an association list in insertion
      order with pairwise distinct keys; the script depends on that order in
      [Counter.most_common] and in the key order of the emitted document.
    - A Python [int] is a [Z].
    - [margin_pct] is a finite binary64 value, hence a rational; every
      threshold it is compared with (0.5, 1, 5.5, 10, 20, 30, 40) is exactly
      representable, so the comparisons of [competitiveness] are the exact
      comparisons on [Q]. *)

From Stdlib Require Import List Bool Arith ZArith QArith Lia Lqa.
From Stdlib Require Import Ascii String.
From Stdlib Require Import Sorting.Sorted Sorting.Permutation Sorting.Mergesort.
Import ListNotations.

Open Scope list_scope.
Open Scope string_scope.

(** ** Python [str] methods used by the script *)

Module PyStr.

Definition in_range (lo hi : N) (c : ascii) : bool :=
  let n := N_of_ascii c in (N.leb lo n && N.leb n hi)%bool.

(** [str.isspace] on one ASCII character: TAB, LF, VT, FF, CR, the four
    separators FS, GS, RS, US, and SPACE. *)
Definition isspace (c : ascii) : bool :=
  (in_range 9 13 c || in_range 28 32 c)%bool.

Definition lower_char (c : ascii) : ascii :=
  if in_range 65 90 c then ascii_of_N (N_of_ascii c + 32) else c.

Definition upper_char (c : ascii) : ascii :=
  if in_range 97 122 c then ascii_of_N (N_of_ascii c - 32) else c.

Fixpoint map_chars (f : ascii -> ascii) (s : string) : string :=
  match s with
  | EmptyString => EmptyString
  | String c r => String (f c) (map_chars f r)
  end.

(** [s.lower()] and [s.upper()] *)
Definition lower : string -> string := map_chars lower_char.
Definition upper : string -> string := map_chars upper_char.

(** [s.replace(a, b)] for one-character [a] and [b] *)
Definition replace_char (a b : ascii) : string -> string :=
  map_chars (fun c => if Ascii.eqb c a then b else c).

Fixpoint lstrip (s : string) : string :=
  match s with
  | EmptyString => EmptyString
  | String c r => if isspace c then lstrip r else s
  end.

Fixpoint rstrip (s : string) : string :=
  match s with
  | EmptyString => EmptyString
  | String c r =>
      match rstrip r with
      | EmptyString => if isspace c then EmptyString else String c EmptyString
      | r' => String c r'
      end
  end.

(** [s.strip()] *)
Definition strip (s : string) : string := lstrip (rstrip s).

(** [s.split()]: the maximal runs of non-blank characters *)
Fixpoint split_ws (s : string) : list string :=
  match s with
  | EmptyString => []
  | String c r =>
      if isspace c then split_ws r
      else match r with
           | EmptyString => [String c EmptyString]
           | String d _ =>
               if isspace d then String c EmptyString :: split_ws r
               else match split_ws r with
                    | w :: ws => String c w :: ws
                    | [] => [String c EmptyString]
                    end
           end
  end.

(** [p] is an initial segment of [s] *)
Fixpoint prefix (p s : string) : bool :=
  match p, s with
  | EmptyString, _ => true
  | String a p', String c s' => (Ascii.eqb a c && prefix p' s')%bool
  | String _ _, EmptyString => false
  end.

(** [sep.join(ws)] *)
Definition join (sep : string) (ws : list string) : string :=
  String.concat sep ws.

(** [s.startswith(p)] *)
Definition startswith (s p : string) : bool := prefix p s.

(** [s.endswith(suf)] *)
Fixpoint endswith (s suf : string) : bool :=
  (String.eqb s suf
   || match s with
      | EmptyString => false
      | String _ r => endswith r suf
      end)%bool.

(** [sub in s] *)
Fixpoint contains (sub s : string) : bool :=
  (prefix sub s
   || match s with
      | EmptyString => false
      | String _ r => contains sub r
      end)%bool.

Fixpoint drop (n : nat) (s : string) : string :=
  match n, s with
  | O, _ => s
  | S _, EmptyString => EmptyString
  | S m, String _ r => drop m r
  end.

(** [s[:n]] for a non-negative [n] *)
Fixpoint take (n : nat) (s : string) : string :=
  match n, s with
  | O, _ => EmptyString
  | S _, EmptyString => EmptyString
  | S m, String c r => String c (take m r)
  end.

(** [s[:-n]] for a positive [n] *)
Definition drop_last (n : nat) (s : string) : string :=
  take (String.length s - n) s.

(** [s.split(sep, 1)] for a non-empty [sep]: the text before and after the
    first occurrence of [sep], or [s] alone when there is none. *)
Fixpoint split1 (sep s : string) : list string :=
  if prefix sep s then [EmptyString; drop (String.length sep) s]
  else match s with
       | EmptyString => [EmptyString]
       | String c r =>
           match split1 sep r with
           | [a; b] => [String c a; b]
           | _ => [s]
           end
       end.

(** Truth value of a string: [bool(s)] *)
Definition truthy (s : string) : bool :=
  match s with EmptyString => false | _ => true end.

(** [a or b] on strings *)
Definition or_else (a b : string) : string := if truthy a then a else b.

(** ** [int(s)] in base 10

    White space around the literal is ignored, one sign is allowed, and
    single underscores may separate digits.  [None] stands for
    [ValueError].  On ASCII text the white space that [int] skips is that
    of the C locale, TAB to CR and SPACE, a smaller class than the one of
    [str.strip].  The interpreter's optional cap on the number of digits is
    not modelled. *)

Definition c_isspace (c : ascii) : bool :=
  (in_range 9 13 c || Ascii.eqb c " ")%bool.

Fixpoint skip_leading (p : ascii -> bool) (s : string) : string :=
  match s with
  | EmptyString => EmptyString
  | String c r => if p c then skip_leading p r else s
  end.

Fixpoint skip_trailing (p : ascii -> bool) (s : string) : string :=
  match s with
  | EmptyString => EmptyString
  | String c r =>
      match skip_trailing p r with
      | EmptyString => if p c then EmptyString else String c EmptyString
      | r' => String c r'
      end
  end.

Definition digit_val (c : ascii) : option Z :=
  if in_range 48 57 c then Some (Z.of_N (N_of_ascii c) - 48)%Z else None.

Fixpoint parse_digits (acc : Z) (after_underscore : bool) (s : string)
  : option Z :=
  match s with
  | EmptyString => if after_underscore then None else Some acc
  | String c r =>
      if Ascii.eqb c "_" then
        if after_underscore then None else parse_digits acc true r
      else match digit_val c with
           | Some d => parse_digits (10 * acc + d)%Z false r
           | None => None
           end
  end.

Definition parse_unsigned (s : string) : option Z :=
  match s with
  | EmptyString => None
  | String c r =>
      match digit_val c with
      | Some d => parse_digits d false r
      | None => None
      end
  end.

Definition int (s : string) : option Z :=
  match skip_leading c_isspace (skip_trailing c_isspace s) with
  | String "+" r => parse_unsigned r
  | String "-" r => option_map Z.opp (parse_unsigned r)
  | t => parse_unsigned t
  end.

End PyStr.

Import PyStr.

(** ** Insertion-ordered dictionaries *)

Module PyDict.
Section Dict.
Context {V : Type}.

Definition dict := list (string * V).

(** [d.get(k)] *)
Fixpoint get (d : dict) (k : string) : option V :=
  match d with
  | [] => None
  | (k', v) :: r => if String.eqb k' k then Some v else get r k
  end.

(** [d.get(k, dflt)] *)
Definition get_or (d : dict) (k : string) (dflt : V) : V :=
  match get d k with Some v => v | None => dflt end.

(** [k in d] *)
Definition mem (k : string) (d : dict) : bool :=
  match get d k with Some _ => true | None => false end.

(** [d[k] = f(d[k])] on a [defaultdict] whose factory yields [dflt]: an
    existing key keeps its position, a new key goes to the end. *)
Fixpoint upd (k : string) (dflt : V) (f : V -> V) (d : dict) : dict :=
  match d with
  | [] => [(k, f dflt)]
  | (k', v) :: r =>
      if String.eqb k' k then (k', f v) :: r
      else (k', v) :: upd k dflt f r
  end.

(** [d[k] = v] *)
Definition set (k : string) (v : V) (d : dict) : dict :=
  upd k v (fun _ => v) d.

Definition keys (d : dict) : list string := map fst d.
Definition values (d : dict) : list V := map snd d.
End Dict.
Arguments dict : clear implicits.
End PyDict.

Import PyDict.

(** [sorted(xs)] on strings: Python compares strings by code point,
    lexicographically, which is [String.compare]. *)
Module StrOrder <: Orders.TotalLeBool.
Definition t := string.
Definition leb := String.leb.
Theorem leb_total : forall a1 a2, leb a1 a2 = true \/ leb a2 a1 = true.
Proof. exact String.leb_total. Qed.
End StrOrder.

Module StrSort := Sort StrOrder.

Definition sorted (xs : list string) : list string := StrSort.sort xs.

(** ** Module constants *)

Record ContestInfo := { contest_type : string; office_rank : Z }.

Definition CONTEST_FILTER : dict ContestInfo :=
  [ ("President", {| contest_type := "Federal"; office_rank := 1 |});
    ("Governor", {| contest_type := "State"; office_rank := 2 |});
    ("U.S. Senator", {| contest_type := "Federal"; office_rank := 3 |});
    ("Attorney General", {| contest_type := "State"; office_rank := 4 |});
    ("Comptroller", {| contest_type := "State"; office_rank := 5 |}) ].

Definition PARTY_MAP : dict string :=
  [ ("democratic", "DEM");
    ("republican", "REP");
    ("libertarian", "LIB");
    ("independent", "IND");
    ("reform", "REF");
    ("green", "GRN");
    ("alliance", "ALL");
    ("taxpayers", "TAX");
    ("natural-law", "NAT");
    ("other", "OTH");
    ("both parties", "BTH") ].

(** ** Name normalisers *)

Definition normalize_contest_name (office : string) : string :=
  let office := strip office in
  if startswith office "Comptroller" then "Comptroller" else office.

Definition normalize_party (party : string) : string :=
  let p := lower (strip (or_else party "")) in
  match get PARTY_MAP p with
  | Some code => code
  | None => if negb (truthy p) then "OTH" else upper p
  end.

Definition remove_running_mate (name : string) : string :=
  let candidate := strip (or_else name "") in
  if negb (truthy candidate) then candidate
  else if contains "/" candidate then strip (hd "" (split1 "/" candidate))
  else
    let fall_through := candidate in
    if contains " and " (lower candidate) then
      let parts := split1 " and " candidate in
      if Nat.eqb (List.length parts) 2 then strip (hd "" parts)
      else fall_through
    else fall_through.

Definition _norm (s : string) : string :=
  join " " (split_ws (lower (strip (replace_char "`" "'" (or_else s ""))))).

(** ** County resolver *)

(** One record of the county shapefile, reduced to the three fields the
    script reads. *)
Record ShapeRecord := {
  STATEFP20 : string;
  NAME20 : string;
  NAMELSAD20 : string
}.

(** [load_namelsad20_lookup], as a function of the records the shapefile
    reader iterates over. *)
Definition load_namelsad20_lookup (records : list ShapeRecord)
  : dict (list string) :=
  fold_left
    (fun by_name rec =>
       if negb (String.eqb (STATEFP20 rec) "24") then by_name
       else upd (_norm (NAME20 rec)) [] (fun l => l ++ [NAMELSAD20 rec])%list
                by_name)
    records [].

(** [next((x for x in xs if sub in x.lower()), None)] followed by the
    truthiness test [if name:] of the script. *)
Definition first_with (sub : string) (xs : list string) : option string :=
  match find (fun x => contains sub (lower x)) xs with
  | Some x => if truthy x then Some x else None
  | None => None
  end.

Definition to_namelsad20 (county : string) (by_name : dict (list string))
  : string :=
  let raw := replace_char "`" "'" (strip county) in
  let nraw := _norm raw in
  let special :=
    if String.eqb nraw "baltimore city"
    then first_with " city" (get_or by_name "baltimore" [])
    else None in
  match special with
  | Some city_name => city_name
  | None =>
      let base :=
        if endswith nraw " county" then strip (drop_last 7 nraw)
        else if endswith nraw " city" then strip (drop_last 5 nraw)
        else nraw in
      let candidates := get_or by_name base [] in
      let fallback :=
        if (endswith (lower raw) " county" || endswith (lower raw) " city")%bool
        then raw else raw ++ " County" in
      match candidates with
      | [] => fallback
      | [only] => only
      | first :: _ :: _ =>
          let by_city :=
            if contains "city" nraw then first_with " city" candidates
            else None in
          match by_city with
          | Some city_name => city_name
          | None =>
              match first_with " county" candidates with
              | Some county_name => county_name
              | None => first
              end
          end
      end
  end.

(** ** Competitiveness scale *)

Record Rating := {
  category : string;
  party : string;
  code : string;
  color : string;
  label : string
}.

(** [x < y] and [x >= y] on the margin *)
Definition Qlt_bool (x y : Q) : bool := negb (Qle_bool y x).
Definition Qge_bool (x y : Q) : bool := Qle_bool y x.

Definition TOSSUP : Rating :=
  {| category := "Tossup";
     party := "Tossup";
     code := "TOSSUP";
     color := "#f7f7f7";
     label := "Tossup (<0.50%)" |}.

Definition competitiveness (margin_pct : Q) (winner : string) : Rating :=
  if (String.eqb winner "TIE" || Qlt_bool margin_pct 0.5)%bool then TOSSUP
  else
    let rep := String.eqb winner "REP" in
    let party_name := if rep then "Republican" else "Democratic" in
    let prefix := if rep then "R" else "D" in
    if Qge_bool margin_pct 40 then
      {| category := "Annihilation";
         party := party_name;
         code := prefix ++ "_ANNIHILATION";
         color := if rep then "#67000d" else "#08306b";
         label := "Annihilation " ++ party_name ++ " (>=40.00%)" |}
    else if Qge_bool margin_pct 30 then
      {| category := "Dominant";
         party := party_name;
         code := prefix ++ "_DOMINANT";
         color := if rep then "#a50f15" else "#08519c";
         label := "Dominant " ++ party_name ++ " (30.00-39.99%)" |}
    else if Qge_bool margin_pct 20 then
      {| category := "Stronghold";
         party := party_name;
         code := prefix ++ "_STRONGHOLD";
         color := if rep then "#cb181d" else "#3182bd";
         label := "Stronghold " ++ party_name ++ " (20.00-29.99%)" |}
    else if Qge_bool margin_pct 10 then
      {| category := "Safe";
         party := party_name;
         code := prefix ++ "_SAFE";
         color := if rep then "#ef3b2c" else "#6baed6";
         label := "Safe " ++ party_name ++ " (10.00-19.99%)" |}
    else if Qge_bool margin_pct 5.5 then
      {| category := "Likely";
         party := party_name;
         code := prefix ++ "_LIKELY";
         color := if rep then "#fb6a4a" else "#9ecae1";
         label := "Likely " ++ party_name ++ " (5.50-9.99%)" |}
    else if Qge_bool margin_pct 1 then
      {| category := "Lean";
         party := party_name;
         code := prefix ++ "_LEAN";
         color := if rep then "#fcae91" else "#c6dbef";
         label := "Lean " ++ party_name ++ " (1.00-5.49%)" |}
    else
      {| category := "Tilt";
         party := party_name;
         code := prefix ++ "_TILT";
         color := if rep then "#fee8c8" else "#e1f5fe";
         label := "Tilt " ++ party_name ++ " (0.50-0.99%)" |}.

(** ** Aggregation: [build] *)

(** One row of [csv.DictReader]; a column the row lacks reads as [None]. *)
Record Row := {
  office : option string;
  county : option string;
  party_field : option string;
  candidate : option string;
  votes : option string
}.

(** [row.get(col) or dflt] *)
Definition field_or (v : option string) (dflt : string) : string :=
  match v with
  | Some s => or_else s dflt
  | None => dflt
  end.

(** One input file: its name and the rows its reader yields. *)
Record CsvFile := { file_name : string; file_rows : list Row }.

(** candidate -> votes, party -> ..., county -> ..., contest -> ...,
    year -> ... *)
Definition CandTally := dict Z.
Definition PartyTally := dict CandTally.
Definition CountyTally := dict PartyTally.
Definition ContestTally := dict CountyTally.
Definition Tally := dict ContestTally.

(** The [try: int(...) except ValueError: 0] of the row loop. *)
Definition row_votes (row : Row) : Z :=
  match int (strip (field_or (votes row) "0")) with
  | Some v => v
  | None => 0%Z
  end.

(** A set of strings, kept without repetition. *)
Definition set_add (x : string) (s : list string) : list string :=
  if existsb (String.eqb x) s then s else (s ++ [x])%list.

Record Acc := {
  tally : Tally;
  years_seen : list string;
  contests_seen : list string
}.

(** The body of [for row in reader]. *)
Definition add_row (namelsad_lookup : dict (list string)) (year : string)
    (acc : Acc) (row : Row) : Acc :=
  let contest := normalize_contest_name (strip (field_or (office row) "")) in
  if negb (mem contest CONTEST_FILTER) then acc
  else
    let county := to_namelsad20 (strip (field_or (county row) "")) namelsad_lookup in
    let party_code := normalize_party (field_or (party_field row) "") in
    let candidate :=
      or_else (remove_running_mate (strip (field_or (candidate row) ""))) "Unknown" in
    let votes := row_votes row in
    {| tally :=
         upd year [] (upd contest [] (upd county [] (upd party_code []
           (upd candidate 0%Z (fun n => (n + votes)%Z))))) (tally acc);
       years_seen := years_seen acc;
       contests_seen := set_add contest (contests_seen acc) |}.

(** The body of [for path in files]. *)
Definition add_file (namelsad_lookup : dict (list string)) (acc : Acc)
    (f : CsvFile) : Acc :=
  let year := take 4 (file_name f) in
  match int year with
  | None => acc
  | Some _ =>
      fold_left (add_row namelsad_lookup year) (file_rows f)
        {| tally := tally acc;
           years_seen := set_add year (years_seen acc);
           contests_seen := contests_seen acc |}
  end.

Definition accumulate (namelsad_lookup : dict (list string))
    (files : list CsvFile) : Acc :=
  fold_left (add_file namelsad_lookup) files
    {| tally := []; years_seen := []; contests_seen := [] |}.

Definition sum (xs : list Z) : Z := fold_left Z.add xs 0%Z.

(** [Counter(d).most_common(1)]: the first entry with the largest count. *)
Fixpoint most_common1 (d : dict Z) : option (string * Z) :=
  match d with
  | [] => None
  | (k, v) :: r =>
      match most_common1 r with
      | Some (k', v') => if (v <? v')%Z then Some (k', v') else Some (k, v)
      | None => Some (k, v)
      end
  end.

Definition leading_candidate (p : string) (by_party : PartyTally) : string :=
  match get by_party p with
  | Some ((_ :: _) as cands) =>
      match most_common1 cands with
      | Some (name, _) => name
      | None => ""
      end
  | _ => ""
  end.

(** The integer and text fields of one emitted county record.  The three
    rounded percentages and the rating derived from them are binary64
    computations and are left out of the record. *)
Record Summary := {
  s_county : string;
  s_contest : string;
  s_contest_type : string;
  s_office_rank : Z;
  s_year : string;
  dem_candidate : string;
  rep_candidate : string;
  dem_votes : Z;
  rep_votes : Z;
  other_votes : Z;
  total_votes : Z;
  two_party_total : Z;
  margin : Z;
  winner : string;
  all_parties : dict Z
}.

Definition summarise (year contest county : string) (by_party : PartyTally)
  : Summary :=
  let party_totals := map (fun pc => (fst pc, sum (values (snd pc)))) by_party in
  let dem := get_or party_totals "DEM" 0%Z in
  let rep := get_or party_totals "REP" 0%Z in
  let total := sum (values party_totals) in
  let two_party := (dem + rep)%Z in
  let info := get_or CONTEST_FILTER contest
                {| contest_type := ""; office_rank := 0 |} in
  {| s_county := county;
     s_contest := contest;
     s_contest_type := contest_type info;
     s_office_rank := office_rank info;
     s_year := year;
     dem_candidate := leading_candidate "DEM" by_party;
     rep_candidate := leading_candidate "REP" by_party;
     dem_votes := dem;
     rep_votes := rep;
     other_votes := (total - two_party)%Z;
     total_votes := total;
     two_party_total := two_party;
     margin := Z.abs (dem - rep);
     winner := if (rep <? dem)%Z then "DEM"
               else if (dem <? rep)%Z then "REP" else "TIE";
     all_parties := party_totals |}.

(** The three nested [for ... in sorted(....keys())] loops.  Each inner
    dictionary is filled by its own loop and stored under its key. *)
Definition results_of_contest (year contest : string) (t : CountyTally)
  : dict Summary :=
  fold_left
    (fun res county => set county (summarise year contest county (get_or t county [])) res)
    (sorted (keys t)) [].

Definition results_of_year (year : string) (t : ContestTally)
  : dict (dict Summary) :=
  fold_left
    (fun res contest => set contest (results_of_contest year contest (get_or t contest [])) res)
    (sorted (keys t)) [].

Definition results_of_tally (t : Tally) : dict (dict (dict Summary)) :=
  fold_left
    (fun res year => set year (results_of_year year (get_or t year [])) res)
    (sorted (keys t)) [].

Record Payload := {
  total_years : nat;
  total_contests : nat;
  total_county_results : nat;
  years_covered : list string;
  results_by_year : dict (dict (dict Summary))
}.

(** [build], as a function of the shapefile records and of the input files
    in the order of [sorted(INPUT_DIR.glob(...))]. *)
Definition build (records : list ShapeRecord) (files : list CsvFile) : Payload :=
  let namelsad_lookup := load_namelsad20_lookup records in
  let acc := accumulate namelsad_lookup files in
  let results := results_of_tally (tally acc) in
  {| total_years := List.length (years_seen acc);
     total_contests := List.length (contests_seen acc);
     total_county_results :=
       list_sum (map (fun y => list_sum (map (fun c => List.length (snd c)) (snd y)))
                     results);
     years_covered := sorted (years_seen acc);
     results_by_year := results |}.

(** ** Vocabulary of the statements *)

(** Every character of [s] is white space (the empty string included). *)
Fixpoint blank (s : string) : bool :=
  match s with
  | EmptyString => true
  | String c r => (isspace c && blank r)%bool
  end.

(** Every character of [s] passes the test [p]. *)
Fixpoint every (p : ascii -> bool) (s : string) : bool :=
  match s with
  | EmptyString => true
  | String c r => (p c && every p r)%bool
  end.

(** Tests on characters: not white space; not an apostrophe.  [unquote] is
    the character map of [replace("`", "'")]. *)
Definition no_space_char (c : ascii) : bool := negb (isspace c).

Definition no_quote_char (c : ascii) : bool := negb (Ascii.eqb c "'").

Definition unquote (c : ascii) : ascii :=
  if Ascii.eqb c "`" then "'"%char else c.

(** A character of the ASCII range, and a text made of such characters:
    the texts on which [lower] and [upper] are [str.lower] and
    [str.upper]. *)
Definition ascii_char (c : ascii) : bool := N.ltb (N_of_ascii c) 128.

Definition is_ascii (s : string) : bool := every ascii_char s.

(** A party code made of exactly three capital letters. *)
Definition three_letters (s : string) : Prop :=
  match s with
  | String a (String b (String c EmptyString)) =>
      in_range 65 90 a = true /\ in_range 65 90 b = true /\
      in_range 65 90 c = true
  | _ => False
  end.

(** Strictly increasing in the code-point order of Python strings. *)
Definition str_lt (a b : string) : Prop := String.ltb a b = true.

Definition increasing (ks : list string) : Prop := Sorted str_lt ks.

(** [P] holds of every value stored in [d]. *)
Definition dict_all {V : Type} (P : V -> Prop) (d : dict V) : Prop :=
  Forall (fun kv => P (snd kv)) d.

(** [tally[year][contest][county][party][candidate]], when that bucket
    exists. *)
Definition count_of (t : Tally) (year contest county party cand : string)
  : option Z :=
  match get t year with
  | Some by_contest =>
      match get by_contest contest with
      | Some by_county =>
          match get by_county county with
          | Some by_party =>
              match get by_party party with
              | Some cands => get cands cand
              | None => None
              end
          | None => None
          end
      | None => None
      end
  | None => None
  end.

(** [results_by_year[year][contest][county]], when that record exists. *)
Definition summary_of (res : dict (dict (dict Summary)))
    (year contest county : string) : option Summary :=
  match get res year with
  | Some by_contest =>
      match get by_contest contest with
      | Some by_county => get by_county county
      | None => None
      end
  | None => None
  end.

(** The bucket a row is counted in, when the row passes the contest
    filter. *)
Definition row_contest (row : Row) : string :=
  normalize_contest_name (strip (field_or (office row) "")).

Definition row_county (namelsad_lookup : dict (list string)) (row : Row)
  : string :=
  to_namelsad20 (strip (field_or (county row) "")) namelsad_lookup.

Definition row_party (row : Row) : string :=
  normalize_party (field_or (party_field row) "").

Definition row_candidate (row : Row) : string :=
  or_else (remove_running_mate (strip (field_or (candidate row) ""))) "Unknown".

(** The keys of a dictionary are pairwise distinct, here at the three
    levels of the tally that the emitting loops iterate over. *)
Definition distinct_keys {V : Type} (d : dict V) : Prop := NoDup (keys d).

Definition wf_tally (t : Tally) : Prop :=
  distinct_keys t
  /\ dict_all (fun by_contest : ContestTally =>
                 distinct_keys by_contest
                 /\ dict_all (fun by_county : CountyTally =>
                                distinct_keys by_county) by_contest) t.

(** The count of a bucket, read as zero while the bucket does not exist. *)
Definition count_or_zero (t : Tally) (year contest county party cand : string)
  : Z :=
  match count_of t year contest county party cand with
  | Some n => n
  | None => 0%Z
  end.

(** Every count stored in the tally is non-negative. *)
Definition tally_nonneg (t : Tally) : Prop :=
  dict_all (dict_all (dict_all (dict_all (dict_all (fun n : Z => (0 <= n)%Z))))) t.

(** ** The shape of the Maryland reference

    Every record of the state has a full name made of its short name and
    " County" or " city"; the short name is not blank and contains neither
    "city" nor "county" in any letter case; and two records of one group
    and one kind carry one full name. *)

Definition in_state (r : ShapeRecord) : bool := String.eqb (STATEFP20 r) "24".

Definition has_suffix (r : ShapeRecord) (suf : string) : bool :=
  String.eqb (NAMELSAD20 r) (NAME20 r ++ suf).

Definition plain_name (n : string) : bool :=
  (negb (blank n)
   && negb (contains "city" (lower n))
   && negb (contains "county" (lower n)))%bool.

Definition county_shaped (r : ShapeRecord) : bool :=
  ((has_suffix r " County" || has_suffix r " city")
   && plain_name (NAME20 r))%bool.

Definition agree (r1 r2 : ShapeRecord) : bool :=
  implb (String.eqb (_norm (NAME20 r1)) (_norm (NAME20 r2))
         && (has_suffix r1 " County" && has_suffix r2 " County"
             || has_suffix r1 " city" && has_suffix r2 " city"))%bool
        (String.eqb (NAMELSAD20 r1) (NAMELSAD20 r2)).

Definition reference_ok (records : list ShapeRecord) : bool :=
  let own := filter in_state records in
  (forallb county_shaped own
   && forallb (fun r1 => forallb (agree r1) own) own)%bool.

(** The records that [load_namelsad20_lookup] files under the key [k], and
    the body of its loop. *)
Definition in_group (k : string) (r : ShapeRecord) : bool :=
  (in_state r && String.eqb (_norm (NAME20 r)) k)%bool.

Definition load_step (by_name : dict (list string)) (rec : ShapeRecord)
  : dict (list string) :=
  if negb (String.eqb (STATEFP20 rec) "24") then by_name
  else upd (_norm (NAME20 rec)) [] (fun l => l ++ [NAMELSAD20 rec])%list by_name.

(** A reference with a parish in place of a county. *)
Definition parish_records : list ShapeRecord :=
  [ {| STATEFP20 := "24"; NAME20 := "Orleans"; NAMELSAD20 := "Orleans Parish" |} ].

(** ** Sample inputs *)

Definition county_record (name : string) : ShapeRecord :=
  {| STATEFP20 := "24"; NAME20 := name; NAMELSAD20 := name ++ " County" |}.

(** The county-equivalents of Maryland as the 2020 reference names them,
    with one record of another state. *)
Definition md_records : list ShapeRecord :=
  (map county_record
     [ "Allegany"; "Anne Arundel"; "Baltimore"; "Calvert"; "Caroline";
       "Carroll"; "Cecil"; "Charles"; "Dorchester"; "Frederick"; "Garrett";
       "Harford"; "Howard"; "Kent"; "Montgomery"; "Prince George's";
       "Queen Anne's"; "St. Mary's"; "Somerset"; "Talbot"; "Washington";
       "Wicomico"; "Worcester" ]
   ++ [ {| STATEFP20 := "24"; NAME20 := "Baltimore";
           NAMELSAD20 := "Baltimore city" |};
        {| STATEFP20 := "10"; NAME20 := "Sussex";
           NAMELSAD20 := "Sussex County" |} ])%list.

Definition csv_row (o c p cand v : string) : Row :=
  {| office := Some o; county := Some c; party_field := Some p;
     candidate := Some cand; votes := Some v |}.

Definition sample_files : list CsvFile :=
  [ {| file_name := "2020__md__general__county.csv";
       file_rows :=
         [ csv_row "President" "Kent" "Democratic" "Biden/Harris" "5329";
           csv_row "President" "Kent" "Republican" "Trump/Pence" "5195";
           csv_row "President" "Allegany" "Democratic" "Biden/Harris" "9158";
           csv_row "President" "Allegany" "Republican" "Trump/Pence" "20886";
           csv_row "President" "Allegany" "Libertarian" "Jorgensen/Cohen" "n/a";
           csv_row "State Senator" "Kent" "Republican" "Hershey" "6000" ] |};
    {| file_name := "2018__md__general__county.csv";
       file_rows :=
         [ csv_row "Governor" "Baltimore City" "Republican" "Hogan/Rutherford" "58613";
           csv_row "Governor" "Baltimore City" "Democratic" "Jealous/Turnbull" "126092";
           csv_row "Comptroller of Maryland" "Baltimore" "Democratic" "Franchot" "225000";
           csv_row "Governor" "Baltimore" "Republican" "Hogan/Rutherford" "200000" ] |} ].

(** One row whose vote field is a negative integer literal. *)
Definition negative_file : list CsvFile :=
  [ {| file_name := "2020__md__general__county.csv";
       file_rows := [ csv_row "President" "Allegany" "DEM" "Smith" "-5" ] |} ].

(** A file with a party that the synonym table does not list. *)
Definition third_party_file : list CsvFile :=
  [ {| file_name := "2020__md__general__county.csv";
       file_rows :=
         [ csv_row "President" "Allegany" "Constitution" "Blankenship" "12" ] |} ].

(** ** Further vocabulary *)

(** The key under which [to_namelsad20] looks a county up: its normal form
    without a final " county" or " city". *)
Definition base_key (county : string) : string :=
  let nraw := _norm (replace_char "`" "'" (strip county)) in
  if endswith nraw " county" then strip (drop_last 7 nraw)
  else if endswith nraw " city" then strip (drop_last 5 nraw)
  else nraw.

(** The legend of the emitted document,
    [categorization_system.competitiveness_scale]. *)
Record LegendEntry := {
  l_category : string;
  l_range : string;
  l_color : string
}.

Definition competitiveness_scale : dict (list LegendEntry) :=
  [ ("Republican",
     [ {| l_category := "Annihilation"; l_range := "R+40%+"; l_color := "#67000d" |};
       {| l_category := "Dominant"; l_range := "R+30.00-39.99%"; l_color := "#a50f15" |};
       {| l_category := "Stronghold"; l_range := "R+20.00-29.99%"; l_color := "#cb181d" |};
       {| l_category := "Safe"; l_range := "R+10.00-19.99%"; l_color := "#ef3b2c" |};
       {| l_category := "Likely"; l_range := "R+5.50-9.99%"; l_color := "#fb6a4a" |};
       {| l_category := "Lean"; l_range := "R+1.00-5.49%"; l_color := "#fcae91" |};
       {| l_category := "Tilt"; l_range := "R+0.50-0.99%"; l_color := "#fee8c8" |} ]);
    ("Tossup",
     [ {| l_category := "Tossup"; l_range := "<0.50%"; l_color := "#f7f7f7" |} ]);
    ("Democratic",
     [ {| l_category := "Tilt"; l_range := "D+0.50-0.99%"; l_color := "#e1f5fe" |};
       {| l_category := "Lean"; l_range := "D+1.00-5.49%"; l_color := "#c6dbef" |};
       {| l_category := "Likely"; l_range := "D+5.50-9.99%"; l_color := "#9ecae1" |};
       {| l_category := "Safe"; l_range := "D+10.00-19.99%"; l_color := "#6baed6" |};
       {| l_category := "Stronghold"; l_range := "D+20.00-29.99%"; l_color := "#3182bd" |};
       {| l_category := "Dominant"; l_range := "D+30.00-39.99%"; l_color := "#08519c" |};
       {| l_category := "Annihilation"; l_range := "D+40%+"; l_color := "#08306b" |} ]) ].

(** ** The counted rows

    The rows that reach the tally, in the order in which [build] reads them,
    each with the bucket it is added to. *)
Record Entry := {
  e_year : string;
  e_contest : string;
  e_county : string;
  e_party : string;
  e_candidate : string;
  e_votes : Z
}.

Definition row_entries (namelsad_lookup : dict (list string)) (year : string)
    (row : Row) : list Entry :=
  if mem (row_contest row) CONTEST_FILTER then
    [ {| e_year := year;
         e_contest := row_contest row;
         e_county := row_county namelsad_lookup row;
         e_party := row_party row;
         e_candidate := row_candidate row;
         e_votes := row_votes row |} ]
  else [].

Definition file_entries (namelsad_lookup : dict (list string)) (f : CsvFile)
  : list Entry :=
  match int (take 4 (file_name f)) with
  | None => []
  | Some _ =>
      flat_map (row_entries namelsad_lookup (take 4 (file_name f))) (file_rows f)
  end.

Definition counted (namelsad_lookup : dict (list string))
    (files : list CsvFile) : list Entry :=
  flat_map (file_entries namelsad_lookup) files.

(** The statement [tally[year][contest][county][party][candidate] += votes]
    for one counted row. *)
Definition add_entry (t : Tally) (e : Entry) : Tally :=
  upd (e_year e) [] (upd (e_contest e) [] (upd (e_county e) []
    (upd (e_party e) [] (upd (e_candidate e) 0%Z
      (fun n => (n + e_votes e)%Z))))) t.

Definition in_county (y c co : string) (e : Entry) : bool :=
  (String.eqb (e_year e) y && String.eqb (e_contest e) c
   && String.eqb (e_county e) co)%bool.

Definition in_party (y c co p : string) (e : Entry) : bool :=
  (in_county y c co e && String.eqb (e_party e) p)%bool.

Definition in_bucket (y c co p cand : string) (e : Entry) : bool :=
  (in_party y c co p e && String.eqb (e_candidate e) cand)%bool.

Definition votes_of (es : list Entry) : Z := sum (map e_votes es).

(** The candidates of one party, the parties of one county and the counties
    of one contest in the tally, read as empty while absent. *)
Definition counties_at (t : Tally) (y c : string) : CountyTally :=
  get_or (get_or t y []) c [].

Definition parties_at (t : Tally) (y c co : string) : PartyTally :=
  get_or (counties_at t y c) co [].

Definition candidates_at (t : Tally) (y c co p : string) : CandTally :=
  get_or (parties_at t y c co) p [].

(** What the reading loop keeps true of its three accumulators. *)
Definition acc_ok (acc : Acc) : Prop :=
  NoDup (years_seen acc)
  /\ NoDup (contests_seen acc)
  /\ incl (contests_seen acc) (keys CONTEST_FILTER)
  /\ incl (keys (tally acc)) (years_seen acc)
  /\ Forall (fun y => int y <> None) (years_seen acc).

(** * Properties *)

(** ** Sanity checks of the embedding on concrete inputs *)

Example strip_ex : strip "  Anne  Arundel " = "Anne  Arundel".
Proof. reflexivity. Qed.

Example split_ws_ex :
  split_ws "  Prince   George's  county" = ["Prince"; "George's"; "county"].
Proof. reflexivity. Qed.

Example split1_ex : split1 " and " "A and B and C" = ["A"; "B and C"].
Proof. reflexivity. Qed.

Example int_ex :
  int " 1_000 " = Some 1000%Z /\ int "-5" = Some (-5)%Z /\
  int "12.5" = None /\ int "" = None /\ int "1__0" = None /\ int "- 5" = None /\
  int "+007" = Some 7%Z /\ int "1_" = None /\ int "_1" = None /\ int "1,234" = None.
Proof. repeat split; reflexivity. Qed.

Example competitiveness_ex :
  competitiveness 20 "DEM" =
  {| category := "Stronghold"; party := "Democratic"; code := "D_STRONGHOLD";
     color := "#3182bd"; label := "Stronghold Democratic (20.00-29.99%)" |}.
Proof. reflexivity. Qed.

Example to_namelsad20_ex :
  let by_name := load_namelsad20_lookup
    [ {| STATEFP20 := "24"; NAME20 := "Baltimore"; NAMELSAD20 := "Baltimore County" |};
      {| STATEFP20 := "24"; NAME20 := "Baltimore"; NAMELSAD20 := "Baltimore city" |};
      {| STATEFP20 := "24"; NAME20 := "St. Mary's"; NAMELSAD20 := "St. Mary's County" |};
      {| STATEFP20 := "10"; NAME20 := "Kent"; NAMELSAD20 := "Kent County" |} ] in
  to_namelsad20 "BALTIMORE  City" by_name = "Baltimore city" /\
  to_namelsad20 "Baltimore" by_name = "Baltimore County" /\
  to_namelsad20 "St. Mary`s" by_name = "St. Mary's County" /\
  to_namelsad20 "Kent" by_name = "Kent County" /\
  to_namelsad20 "Ocean city" by_name = "Ocean city".
Proof. repeat split; reflexivity. Qed.

(** ** The competitiveness scale *)

Section Comparisons.
Open Scope Q_scope.

Lemma Qlt_bool_true x y : Qlt_bool x y = true <-> x < y.
Proof.
  unfold Qlt_bool. rewrite negb_true_iff.
  split; intro H.
  - apply Qnot_le_lt. intro Hle. apply Qle_bool_iff in Hle. congruence.
  - destruct (Qle_bool y x) eqn:E; [|reflexivity].
    apply Qle_bool_iff in E. lra.
Qed.

Lemma Qlt_bool_false x y : Qlt_bool x y = false <-> y <= x.
Proof.
  unfold Qlt_bool. rewrite negb_false_iff. apply Qle_bool_iff.
Qed.

Lemma Qge_bool_true x y : Qge_bool x y = true <-> y <= x.
Proof. apply Qle_bool_iff. Qed.

Lemma Qge_bool_false x y : Qge_bool x y = false <-> x < y.
Proof.
  unfold Qge_bool. split; intro H.
  - apply Qnot_le_lt. intro Hle. apply Qle_bool_iff in Hle. congruence.
  - destruct (Qle_bool y x) eqn:E; [|reflexivity].
    apply Qle_bool_iff in E. lra.
Qed.
End Comparisons.

(** Turn the outcome of every threshold test in the context into an
    inequality of [Q]. *)
Ltac thresholds :=
  repeat match goal with
    | H : Qge_bool _ _ = true |- _ => apply Qge_bool_true in H
    | H : Qge_bool _ _ = false |- _ => apply Qge_bool_false in H
    | H : Qlt_bool _ _ = true |- _ => apply Qlt_bool_true in H
    | H : Qlt_bool _ _ = false |- _ => apply Qlt_bool_false in H
    end.

(** Run [competitiveness] symbolically: split on the two winner tests, then
    follow the chain of threshold tests from the top, handing every return
    point to [tac] with the tests passed so far as inequalities. *)
Ltac run_competitiveness m w tac :=
  unfold competitiveness;
  destruct (String.eqb_spec w "TIE") as [Etie | Etie];
  destruct (String.eqb_spec w "REP") as [Erep | Erep];
  cbn [orb];
  (destruct (Qlt_bool m 0.5) eqn:E05; thresholds; [tac|]);
  (destruct (Qge_bool m 40) eqn:E40; thresholds; [tac|]);
  (destruct (Qge_bool m 30) eqn:E30; thresholds; [tac|]);
  (destruct (Qge_bool m 20) eqn:E20; thresholds; [tac|]);
  (destruct (Qge_bool m 10) eqn:E10; thresholds; [tac|]);
  (destruct (Qge_bool m 5.5) eqn:E55; thresholds; [tac|]);
  (destruct (Qge_bool m 1) eqn:E1; thresholds; tac).

(** C1: [competitiveness] returns the party-neutral Tossup rating exactly
    when the winner is "TIE" or the margin is below 0.50; so a tie is a
    Tossup at every margin, and a margin of exactly 0.50 won by "DEM" or
    "REP" is not.  The bound [margin_pct >= 0] of the claim is not needed. *)
Theorem competitiveness_tossup_iff :
  forall (margin_pct : Q) (w : string),
    (competitiveness margin_pct w = TOSSUP <->
       (w = "TIE" \/ (margin_pct < 0.5)%Q))
    /\ (category (competitiveness margin_pct w) = "Tossup" <->
       (w = "TIE" \/ (margin_pct < 0.5)%Q))
    /\ competitiveness margin_pct "TIE" = TOSSUP
    /\ category (competitiveness 0.5 "DEM") <> "Tossup"
    /\ category (competitiveness 0.5 "REP") <> "Tossup".
Proof.
  intros m w.
  assert (Hcat : category (competitiveness m w) = "Tossup" <->
                 (w = "TIE" \/ (m < 0.5)%Q)).
  { run_competitiveness m w
      ltac:(cbn; split; intro H;
            [ first [discriminate | auto]
            | first [reflexivity
                    | destruct H as [H | H]; [contradiction | exfalso; lra]] ]). }
  split; [|split; [exact Hcat|split; [reflexivity|split; discriminate]]].
  split; intro H.
  - apply Hcat. rewrite H. reflexivity.
  - unfold competitiveness.
    destruct H as [-> | H]; [reflexivity|].
    apply Qlt_bool_true in H. rewrite H, orb_true_r. reflexivity.
Qed.

(** C2: for a winner in {DEM, REP} and a margin of at least 0.5, the band is
    the first one, from the top, whose inclusive lower bound the margin
    reaches: 40 Annihilation, 30 Dominant, 20 Stronghold, 10 Safe, 5.5
    Likely, 1 Lean, otherwise Tilt; the party and the code follow the
    winner.  A margin of 20.00 won by "DEM" is "Stronghold", "D_STRONGHOLD". *)
Theorem competitiveness_bands :
  forall (margin_pct : Q) (w : string),
    w = "DEM" \/ w = "REP" ->
    (0.5 <= margin_pct)%Q ->
    let r := competitiveness margin_pct w in
    ((40 <= margin_pct)%Q -> category r = "Annihilation")
    /\ ((30 <= margin_pct)%Q -> (margin_pct < 40)%Q -> category r = "Dominant")
    /\ ((20 <= margin_pct)%Q -> (margin_pct < 30)%Q -> category r = "Stronghold")
    /\ ((10 <= margin_pct)%Q -> (margin_pct < 20)%Q -> category r = "Safe")
    /\ ((5.5 <= margin_pct)%Q -> (margin_pct < 10)%Q -> category r = "Likely")
    /\ ((1 <= margin_pct)%Q -> (margin_pct < 5.5)%Q -> category r = "Lean")
    /\ ((margin_pct < 1)%Q -> category r = "Tilt")
    /\ party r = (if String.eqb w "REP" then "Republican" else "Democratic")
    /\ code r = (if String.eqb w "REP" then "R" else "D") ++ "_" ++ upper (category r)
    /\ category (competitiveness 20 "DEM") = "Stronghold"
    /\ code (competitiveness 20 "DEM") = "D_STRONGHOLD".
Proof.
  intros m w Hw Hm r. subst r.
  assert (Hne : w <> "TIE") by (destruct Hw; subst; discriminate).
  run_competitiveness m w
    ltac:(first
      [ contradiction
      | exfalso; lra
      | repeat match goal with |- _ /\ _ => split end;
        intros;
        first [ reflexivity
              | exfalso; lra
              | destruct Hw; subst; first [discriminate | contradiction | reflexivity] ] ]).
Qed.

Lemma competitiveness_bands_witness :
  ("DEM" = "DEM" \/ "DEM" = "REP") /\ (0.5 <= 20)%Q /\
  category (competitiveness 20 "DEM") = "Stronghold".
Proof.
  assert (Hw : "DEM" = "DEM" \/ "DEM" = "REP") by (left; reflexivity).
  assert (Hm : (0.5 <= 20)%Q) by (unfold Qle; simpl; lia).
  split; [exact Hw|]. split; [exact Hm|].
  pose proof (competitiveness_bands 20 "DEM" Hw Hm) as P.
  cbv zeta in P.
  destruct P as (_ & _ & P & _).
  apply P; [unfold Qle; simpl; lia | unfold Qlt; simpl; lia].
Defined.

(** C9: the winner argument is not validated.  At a margin of at least 0.5,
    every winner string other than "REP" and "TIE" is rated on the
    Democratic side (party "Democratic", code prefix "D"); the string "REP"
    is rated on the Republican side, and it is the only one that is. *)
Theorem competitiveness_unvalidated_winner :
  forall (margin_pct : Q) (w : string),
    (0.5 <= margin_pct)%Q ->
    w <> "REP" -> w <> "TIE" ->
    (party (competitiveness margin_pct w) = "Democratic"
     /\ startswith (code (competitiveness margin_pct w)) "D_" = true)
    /\ (party (competitiveness margin_pct "REP") = "Republican"
        /\ startswith (code (competitiveness margin_pct "REP")) "R_" = true)
    /\ (forall w' : string,
          party (competitiveness margin_pct w') = "Republican" -> w' = "REP").
Proof.
  intros m w Hm Hrep Htie.
  split; [|split].
  - run_competitiveness m w
      ltac:(first [contradiction | exfalso; lra | split; reflexivity]).
  - run_competitiveness m "REP"
      ltac:(first [discriminate | congruence | exfalso; lra | split; reflexivity]).
  - intros w'.
    run_competitiveness m w'
      ltac:(first [exfalso; lra | cbn; intro H; first [discriminate | assumption]]).
Qed.

Lemma competitiveness_unvalidated_winner_witness :
  party (competitiveness 12 "GRN") = "Democratic"
  /\ startswith (code (competitiveness 12 "GRN")) "D_" = true.
Proof.
  apply (competitiveness_unvalidated_winner 12 "GRN");
    [unfold Qle; simpl; lia | discriminate | discriminate].
Defined.

(** ** Facts about the text helpers *)

Section TextFacts.

Lemma isspace_lower_char c : isspace (lower_char c) = isspace c.
Proof. destruct c as [[] [] [] [] [] [] [] []]; reflexivity. Qed.

Lemma isspace_unquote c :
  isspace (if Ascii.eqb c "`" then "'"%char else c) = isspace c.
Proof. destruct c as [[] [] [] [] [] [] [] []]; reflexivity. Qed.

Lemma or_else_empty s : or_else s "" = s.
Proof. destruct s; reflexivity. Qed.

Lemma map_chars_app f a b :
  map_chars f (a ++ b) = map_chars f a ++ map_chars f b.
Proof. induction a; simpl; congruence. Qed.

Lemma rstrip_head c r d t : rstrip (String c r) = String d t -> d = c.
Proof.
  simpl. destruct (rstrip r); [destruct (isspace c)|]; congruence.
Qed.

Variable f : ascii -> ascii.
Hypothesis f_space : forall c, isspace (f c) = isspace c.

Lemma map_chars_lstrip s : map_chars f (lstrip s) = lstrip (map_chars f s).
Proof.
  induction s as [|c r IH]; simpl; [reflexivity|].
  rewrite f_space. destruct (isspace c); [exact IH | reflexivity].
Qed.

Lemma map_chars_rstrip s : map_chars f (rstrip s) = rstrip (map_chars f s).
Proof.
  induction s as [|c r IH]; simpl; [reflexivity|].
  rewrite <- IH, f_space.
  destruct (rstrip r); simpl; [destruct (isspace c)|]; reflexivity.
Qed.

Lemma map_chars_strip s : map_chars f (strip s) = strip (map_chars f s).
Proof. unfold strip. rewrite map_chars_lstrip, map_chars_rstrip. reflexivity. Qed.

End TextFacts.

Lemma lower_strip s : lower (strip s) = strip (lower s).
Proof. apply map_chars_strip, isspace_lower_char. Qed.

Lemma unquote_strip s :
  replace_char "`" "'" (strip s) = strip (replace_char "`" "'" s).
Proof. apply map_chars_strip, isspace_unquote. Qed.

Lemma unquote_idem s :
  replace_char "`" "'" (replace_char "`" "'" s) = replace_char "`" "'" s.
Proof.
  unfold replace_char.
  induction s as [|c r IH]; simpl; [reflexivity|].
  rewrite IH. f_equal.
  destruct (Ascii.eqb c "`") eqn:E; [reflexivity | rewrite E; reflexivity].
Qed.

Lemma blank_rstrip s : blank s = true -> rstrip s = "".
Proof.
  induction s as [|c r IH]; simpl; [reflexivity|].
  intros H. apply andb_true_iff in H. destruct H as [Hc Hr].
  rewrite (IH Hr), Hc. reflexivity.
Qed.

Lemma blank_strip s : blank s = true -> strip s = "".
Proof. intros H. unfold strip. rewrite (blank_rstrip _ H). reflexivity. Qed.

Lemma split_ws_lstrip s : split_ws (lstrip s) = split_ws s.
Proof.
  induction s as [|c r IH]; [reflexivity|].
  simpl lstrip. destruct (isspace c) eqn:E; [|reflexivity].
  rewrite IH. simpl. rewrite E. reflexivity.
Qed.

Lemma split_ws_cons c r :
  split_ws (String c r) =
  if isspace c then split_ws r
  else match r with
       | EmptyString => [String c EmptyString]
       | String d _ =>
           if isspace d then String c EmptyString :: split_ws r
           else match split_ws r with
                | w :: ws => String c w :: ws
                | [] => [String c EmptyString]
                end
       end.
Proof. reflexivity. Qed.

Lemma split_ws_rstrip s : split_ws (rstrip s) = split_ws s.
Proof.
  induction s as [|c r IH]; [reflexivity|].
  destruct (rstrip (String c r)) as [|d t] eqn:E.
  - simpl in E. destruct (rstrip r) eqn:Er; [|discriminate].
    destruct (isspace c) eqn:Ec; [|discriminate].
    rewrite split_ws_cons, Ec, <- IH. reflexivity.
  - pose proof (rstrip_head _ _ _ _ E) as ->.
    simpl in E. destruct (rstrip r) as [|d' t'] eqn:Er.
    + destruct (isspace c) eqn:Ec; [discriminate|].
      injection E as <-. rewrite !split_ws_cons, Ec, <- IH.
      destruct r as [|d r']; [reflexivity|].
      destruct (isspace d); reflexivity.
    + injection E as <-. rewrite !split_ws_cons, <- IH.
      destruct (isspace c); [reflexivity|].
      destruct r as [|d r']; [discriminate|].
      pose proof (rstrip_head _ _ _ _ Er) as ->. reflexivity.
Qed.

Lemma split_ws_strip s : split_ws (strip s) = split_ws s.
Proof. unfold strip. rewrite split_ws_lstrip. apply split_ws_rstrip. Qed.

(** [_norm] does not depend on the outer white space of its argument. *)
Lemma norm_eq s :
  _norm s = join " " (split_ws (lower (replace_char "`" "'" s))).
Proof.
  unfold _norm. rewrite or_else_empty, lower_strip, split_ws_strip. reflexivity.
Qed.

(** The resolver normalises the trimmed, unquoted county; that is the normal
    form of the county itself. *)
Lemma norm_raw s : _norm (replace_char "`" "'" (strip s)) = _norm s.
Proof.
  rewrite !norm_eq, unquote_idem, unquote_strip, lower_strip, split_ws_strip.
  reflexivity.
Qed.

Lemma contains_nonempty sub s :
  sub <> "" -> contains sub (lower s) = true -> truthy s = true.
Proof.
  intros Hsub H. destruct s; [|reflexivity].
  simpl in H. destruct sub; [congruence | discriminate].
Qed.

Lemma first_with_found sub xs x :
  sub <> "" -> In x xs -> contains sub (lower x) = true ->
  exists y, first_with sub xs = Some y
            /\ find (fun z => contains sub (lower z)) xs = Some y
            /\ In y xs /\ contains sub (lower y) = true.
Proof.
  intros Hsub Hin Hx. unfold first_with.
  destruct (find (fun z => contains sub (lower z)) xs) as [y|] eqn:E.
  - apply find_some in E as Hy. destruct Hy as [Hy1 Hy2].
    exists y. rewrite (contains_nonempty _ _ Hsub Hy2). auto.
  - apply find_none with (x := x) in E; [congruence | assumption].
Qed.

(** ** Concatenation, suffixes and factors *)

Lemma app_assoc_s a b c : (a ++ b) ++ c = a ++ b ++ c.
Proof. induction a; simpl; congruence. Qed.

Lemma length_app a b :
  String.length (a ++ b) = (String.length a + String.length b)%nat.
Proof. induction a; simpl; congruence. Qed.

Lemma take_app a b : take (String.length a) (a ++ b) = a.
Proof. induction a; simpl; [destruct b; reflexivity | congruence]. Qed.

Lemma drop_last_app a b : drop_last (String.length b) (a ++ b) = a.
Proof.
  unfold drop_last. rewrite length_app, Nat.add_sub. apply take_app.
Qed.

Lemma app_inv_tail_s a b c : a ++ c = b ++ c -> a = b.
Proof.
  intros H. rewrite <- (drop_last_app a c), <- (drop_last_app b c), H.
  reflexivity.
Qed.

Lemma endswith_app a b : endswith (a ++ b) b = true.
Proof.
  induction a as [|c a IH]; simpl.
  - destruct b; simpl; rewrite ?Ascii.eqb_refl, ?String.eqb_refl; reflexivity.
  - rewrite IH. apply orb_true_r.
Qed.

Lemma endswith_eq s suf :
  endswith s suf =
  (String.eqb s suf
   || match s with
      | EmptyString => false
      | String _ r => endswith r suf
      end)%bool.
Proof. destruct s; reflexivity. Qed.

(** A string that ends in " city" does not end in " county". *)
Lemma endswith_city_county k : endswith (k ++ " city") " county" = false.
Proof.
  induction k as [|c k IH]; [reflexivity|].
  change (String c k ++ " city") with (String c (k ++ " city")).
  rewrite endswith_eq, IH, orb_false_r.
  apply String.eqb_neq. intros E.
  pose proof (f_equal String.length E) as L.
  cbn [String.length] in L. rewrite length_app in L. cbn [String.length] in L.
  destruct k as [|d [|e k]]; cbn [String.length] in L; try lia.
  discriminate E.
Qed.

Lemma contains_eq w s :
  contains w s =
  (prefix w s
   || match s with
      | EmptyString => false
      | String _ r => contains w r
      end)%bool.
Proof. destruct s; reflexivity. Qed.

Lemma prefix_app_r w a b : prefix w a = true -> prefix w (a ++ b) = true.
Proof.
  revert a. induction w as [|x w IH]; intros [|c a] H; try reflexivity;
    try discriminate.
  simpl in H |- *. apply andb_true_iff in H. destruct H as [-> H].
  apply IH, H.
Qed.

Lemma contains_app_l w a b : contains w a = true -> contains w (a ++ b) = true.
Proof.
  induction a as [|c a IH]; intros H; rewrite contains_eq in H.
  - rewrite orb_false_r in H. rewrite contains_eq.
    rewrite (prefix_app_r _ _ b H). reflexivity.
  - change (String c a ++ b) with (String c (a ++ b)). rewrite contains_eq.
    apply orb_true_iff in H. destruct H as [H | H].
    + apply (prefix_app_r _ _ b) in H. simpl append in H. rewrite H. reflexivity.
    + rewrite (IH H). apply orb_true_r.
Qed.

Lemma contains_app_r w a b : contains w b = true -> contains w (a ++ b) = true.
Proof.
  intros H. induction a as [|c a IH]; [exact H|].
  change (String c a ++ b) with (String c (a ++ b)).
  rewrite contains_eq, IH. apply orb_true_r.
Qed.

Lemma prefix_refl w : prefix w w = true.
Proof. induction w; simpl; rewrite ?Ascii.eqb_refl; auto. Qed.

Lemma contains_refl w : contains w w = true.
Proof. rewrite contains_eq, prefix_refl. reflexivity. Qed.

(** A string that has [c w] as a factor has [w] as a factor. *)
Lemma contains_tail c w s : contains (String c w) s = true -> contains w s = true.
Proof.
  induction s as [|d s IH]; intros H; rewrite contains_eq in H.
  - discriminate.
  - apply orb_true_iff in H. rewrite contains_eq.
    destruct H as [H | H].
    + simpl in H. apply andb_true_iff in H. destruct H as [_ H].
      assert (C : contains w s = true)
        by (rewrite contains_eq, H; reflexivity).
      rewrite C. apply orb_true_r.
    + rewrite (IH H). apply orb_true_r.
Qed.

Lemma not_contains_tail c w s :
  contains w s = false -> contains (String c w) s = false.
Proof.
  intros H. destruct (contains (String c w) s) eqn:E; [|reflexivity].
  apply contains_tail in E. congruence.
Qed.

(** [w] does not occur in [a ++ b] when it occurs in neither and cannot
    straddle the seam. *)
Lemma contains_app_false w b :
  (forall a, prefix w (a ++ b) = true -> prefix w a = true) ->
  contains w b = false ->
  forall a, contains w a = false -> contains w (a ++ b) = false.
Proof.
  intros Hseam Hb. induction a as [|c a IH]; intros H; [exact Hb|].
  rewrite contains_eq in H. apply orb_false_iff in H. destruct H as [Hp Hc].
  change (String c a ++ b) with (String c (a ++ b)).
  rewrite contains_eq, (IH Hc), orb_false_r.
  destruct (prefix w (String c (a ++ b))) eqn:E; [|reflexivity].
  apply (Hseam (String c a)) in E. congruence.
Qed.

(** Decide a seam condition for a literal factor and a literal tail, once
    the unknown string has been peeled one character at a time. *)
Ltac seam :=
  cbn [prefix append];
  repeat match goal with
    | |- context [Ascii.eqb ?x ?y] => is_var y; destruct (Ascii.eqb x y)
    end;
  cbn; intros; first [discriminate | reflexivity].

Lemma seam_city_county a :
  prefix " city" (a ++ " county") = true -> prefix " city" a = true.
Proof. destruct a as [|x1 [|x2 [|x3 [|x4 [|x5 a]]]]]; seam. Qed.

Lemma seam_county_city a :
  prefix " county" (a ++ " city") = true -> prefix " county" a = true.
Proof. destruct a as [|x1 [|x2 [|x3 [|x4 [|x5 [|x6 [|x7 a]]]]]]]; seam. Qed.

Lemma seam_city_word a :
  prefix "city" (a ++ " county") = true -> prefix "city" a = true.
Proof. destruct a as [|x1 [|x2 [|x3 [|x4 a]]]]; seam. Qed.

(** ** Words, and the normal form of a name *)

Lemma split_ws_nonempty c r : isspace c = false -> split_ws (String c r) <> [].
Proof.
  intros H. rewrite split_ws_cons, H.
  destruct r as [|d r]; [discriminate|].
  destruct (isspace d); [discriminate|].
  destruct (split_ws (String d r)); discriminate.
Qed.

Lemma blank_split_ws s : blank s = false -> split_ws s <> [].
Proof.
  induction s as [|c r IH]; [discriminate|].
  cbn [blank]. destruct (isspace c) eqn:E.
  - rewrite andb_true_l, split_ws_cons, E. exact IH.
  - intros _. apply split_ws_nonempty, E.
Qed.

Lemma blank_map_chars f s :
  (forall c, isspace (f c) = isspace c) -> blank (map_chars f s) = blank s.
Proof.
  intros Hf. induction s as [|c r IH]; simpl; [reflexivity|].
  rewrite Hf, IH. reflexivity.
Qed.

(** Splitting distributes over a seam that starts with white space. *)
Lemma split_ws_app_space a sp t :
  isspace sp = true ->
  split_ws (a ++ String sp t) = (split_ws a ++ split_ws (String sp t))%list.
Proof.
  intros Hsp. induction a as [|c r IH]; [reflexivity|].
  change (String c r ++ String sp t) with (String c (r ++ String sp t)).
  rewrite (split_ws_cons c r), (split_ws_cons c (r ++ String sp t)).
  destruct (isspace c) eqn:Ec; [exact IH|].
  destruct r as [|d r].
  - cbn [append]. rewrite Hsp. reflexivity.
  - change (String d r ++ String sp t) with (String d (r ++ String sp t)) in *.
    cbv beta iota. destruct (isspace d) eqn:Ed.
    + rewrite IH. reflexivity.
    + rewrite IH.
      pose proof (split_ws_nonempty d r Ed) as Hne.
      destruct (split_ws (String d r)) as [|w ws]; [congruence | reflexivity].
Qed.

Lemma join_snoc sep ws x :
  ws <> [] -> join sep (ws ++ [x]) = join sep ws ++ sep ++ x.
Proof.
  unfold join. induction ws as [|w ws IH]; [congruence|]. intros _.
  destruct ws as [|w' ws]; [reflexivity|].
  change (String.concat sep ((w :: w' :: ws) ++ [x]))
    with (w ++ sep ++ String.concat sep ((w' :: ws) ++ [x])).
  rewrite IH by discriminate.
  change (String.concat sep (w :: w' :: ws))
    with (w ++ sep ++ String.concat sep (w' :: ws)).
  rewrite !app_assoc_s. reflexivity.
Qed.

Lemma lower_unquote_blank n :
  blank (lower (replace_char "`" "'" n)) = blank n.
Proof.
  unfold lower, replace_char.
  rewrite (blank_map_chars _ _ isspace_lower_char).
  apply blank_map_chars, isspace_unquote.
Qed.

(** The normal form of a non-blank name followed by a one-word suffix. *)
Lemma norm_app_suffix n suf lo :
  blank n = false ->
  lower (replace_char "`" "'" suf) = String " " lo ->
  split_ws (String " " lo) = [lo] ->
  _norm (n ++ suf) = _norm n ++ " " ++ lo.
Proof.
  intros Hn Hsuf Hlo. rewrite !norm_eq.
  unfold replace_char, lower in *. rewrite !map_chars_app, Hsuf.
  rewrite split_ws_app_space by reflexivity. rewrite Hlo.
  apply join_snoc, blank_split_ws.
  pose proof (lower_unquote_blank n) as B. unfold lower, replace_char in B.
  rewrite B. exact Hn.
Qed.

Lemma norm_app_county n :
  blank n = false -> _norm (n ++ " County") = _norm n ++ " county".
Proof. intros H. apply norm_app_suffix; [exact H | reflexivity | reflexivity]. Qed.

Lemma norm_app_city n :
  blank n = false -> _norm (n ++ " city") = _norm n ++ " city".
Proof. intros H. apply norm_app_suffix; [exact H | reflexivity | reflexivity]. Qed.

(** The words of [s] joined by single spaces, one character at a time. *)
Lemma join_split_cons c r :
  isspace c = false ->
  join " " (split_ws (String c r)) =
  String c
    match r with
    | EmptyString => EmptyString
    | String d _ =>
        if isspace d then
          match split_ws r with
          | [] => EmptyString
          | _ :: _ => " " ++ join " " (split_ws r)
          end
        else join " " (split_ws r)
    end.
Proof.
  intros Hc. rewrite split_ws_cons, Hc.
  destruct r as [|d r]; [reflexivity|].
  destruct (isspace d) eqn:Hd.
  - destruct (split_ws (String d r)); reflexivity.
  - pose proof (split_ws_nonempty d r Hd) as Hne.
    destruct (split_ws (String d r)) as [|w [|w' ws]]; [congruence | |];
      reflexivity.
Qed.

Lemma join_split_space c r :
  isspace c = true ->
  join " " (split_ws (String c r)) = join " " (split_ws r).
Proof. intros Hc. rewrite split_ws_cons, Hc. reflexivity. Qed.

Lemma join_split_empty s : join " " (split_ws s) = "" -> split_ws s = [].
Proof.
  induction s as [|c r IH]; [reflexivity|].
  destruct (isspace c) eqn:Hc.
  - rewrite join_split_space, split_ws_cons, Hc by exact Hc. exact IH.
  - rewrite join_split_cons by exact Hc. discriminate.
Qed.

Lemma lstrip_join_split s :
  lstrip (join " " (split_ws s)) = join " " (split_ws s).
Proof.
  induction s as [|c r IH]; [reflexivity|].
  destruct (isspace c) eqn:Hc.
  - rewrite join_split_space by exact Hc. exact IH.
  - rewrite join_split_cons by exact Hc. cbn [lstrip]. rewrite Hc. reflexivity.
Qed.

Lemma rstrip_cons_fixed c x :
  isspace c = false -> rstrip x = x -> rstrip (String c x) = String c x.
Proof.
  intros Hc Hx. cbn [rstrip]. rewrite Hx, Hc. destruct x; reflexivity.
Qed.

Lemma rstrip_join_split s :
  rstrip (join " " (split_ws s)) = join " " (split_ws s).
Proof.
  induction s as [|c r IH]; [reflexivity|].
  destruct (isspace c) eqn:Hc.
  - rewrite join_split_space by exact Hc. exact IH.
  - rewrite join_split_cons by exact Hc.
    apply rstrip_cons_fixed; [exact Hc|].
    destruct r as [|d r]; [reflexivity|].
    destruct (isspace d); [|exact IH].
    destruct (split_ws (String d r)) as [|w ws] eqn:E; [reflexivity|].
    change (" " ++ join " " (w :: ws)) with (String " " (join " " (w :: ws))).
    cbn [rstrip]. rewrite IH.
    destruct (join " " (w :: ws)) eqn:J; [|reflexivity].
    rewrite <- E in J. apply join_split_empty in J. congruence.
Qed.

(** A normal form has no outer white space. *)
Lemma strip_norm n : strip (_norm n) = _norm n.
Proof.
  rewrite norm_eq. unfold strip.
  rewrite rstrip_join_split. apply lstrip_join_split.
Qed.

(** A word without white space that occurs in the normal form of a text
    occurs in the text. *)

Lemma every_head p c w : every p (String c w) = true -> p c = true.
Proof. simpl. intros H. apply andb_true_iff in H. tauto. Qed.

Lemma prefix_space_word w x :
  every no_space_char w = true -> prefix w (String " " x) = true -> w = "".
Proof.
  destruct w as [|c w]; [reflexivity|]. intros Hw H.
  apply every_head in Hw. simpl in H. apply andb_true_iff in H.
  destruct H as [H _]. apply Ascii.eqb_eq in H. subst c. discriminate.
Qed.

Lemma prefix_join_split s c w :
  isspace c = false -> every no_space_char w = true ->
  prefix w (join " " (split_ws (String c s))) = true ->
  prefix w (String c s) = true.
Proof.
  revert c w. induction s as [|d s IH]; intros c w Hc Hw H;
    rewrite join_split_cons in H by exact Hc.
  - exact H.
  - destruct w as [|x w]; [reflexivity|].
    cbn [prefix] in H |- *. apply andb_true_iff in H. destruct H as [Hx H].
    rewrite Hx, andb_true_l.
    assert (Hw' : every no_space_char w = true).
    { simpl in Hw. apply andb_true_iff in Hw. tauto. }
    destruct (isspace d) eqn:Hd.
    + destruct (split_ws (String d s)).
      * destruct w; [reflexivity | discriminate].
      * apply prefix_space_word in H; [subst w; reflexivity | exact Hw'].
    + apply IH; assumption.
Qed.

Lemma contains_empty s : contains "" s = true.
Proof. destruct s; reflexivity. Qed.

Lemma contains_join_split w s :
  every no_space_char w = true ->
  contains w (join " " (split_ws s)) = true -> contains w s = true.
Proof.
  intros Hw. induction s as [|c r IH]; intros H; [exact H|].
  rewrite (contains_eq w (String c r)).
  destruct (isspace c) eqn:Hc.
  - rewrite join_split_space in H by exact Hc.
    rewrite (IH H). apply orb_true_r.
  - pose proof (prefix_join_split r c w Hc Hw) as P.
    rewrite join_split_cons in H, P by exact Hc.
    rewrite contains_eq in H. apply orb_true_iff in H.
    destruct H as [H | H]; [rewrite (P H); reflexivity|].
    enough (contains w r = true) as -> by apply orb_true_r.
    destruct r as [|d r].
    + rewrite contains_eq in H. rewrite orb_false_r in H.
      destruct w; [reflexivity | discriminate].
    + destruct (isspace d); [|exact (IH H)].
      destruct (split_ws (String d r)) as [|w0 ws].
      * rewrite contains_eq in H. rewrite orb_false_r in H.
        destruct w; [apply contains_empty | discriminate].
      * change (" " ++ join " " (w0 :: ws))
          with (String " " (join " " (w0 :: ws))) in H.
        rewrite contains_eq in H. apply orb_true_iff in H.
        destruct H as [H | H]; [|exact (IH H)].
        apply prefix_space_word in H; [subst w; apply contains_empty | exact Hw].
Qed.

Lemma prefix_unquote w t :
  every no_quote_char w = true ->
  prefix w (replace_char "`" "'" t) = true -> prefix w t = true.
Proof.
  unfold replace_char.
  revert t. induction w as [|x w IH]; intros [|c t] Hw H; try reflexivity;
    try discriminate.
  cbn [map_chars prefix] in H |- *.
  simpl in Hw. apply andb_true_iff in Hw. destruct Hw as [Hx Hw].
  apply andb_true_iff in H. destruct H as [Hc H].
  rewrite (IH _ Hw H), andb_true_r.
  apply Ascii.eqb_eq in Hc. apply Ascii.eqb_eq.
  destruct (Ascii.eqb_spec c "`") as [->|]; [|exact Hc].
  subst x. discriminate.
Qed.

Lemma contains_unquote w t :
  every no_quote_char w = true ->
  contains w (replace_char "`" "'" t) = true -> contains w t = true.
Proof.
  intros Hw. induction t as [|c t IH]; intros H.
  - exact H.
  - rewrite contains_eq. change (replace_char "`" "'" (String c t))
      with (String (unquote c) (replace_char "`" "'" t)) in H.
    rewrite contains_eq in H. apply orb_true_iff in H.
    destruct H as [H | H].
    + change (String (unquote c) (replace_char "`" "'" t))
        with (replace_char "`" "'" (String c t)) in H.
      rewrite (prefix_unquote _ _ Hw H). reflexivity.
    + rewrite (IH H). apply orb_true_r.
Qed.

Lemma lower_unquote_comm s :
  lower (replace_char "`" "'" s) = replace_char "`" "'" (lower s).
Proof.
  unfold lower, replace_char. induction s as [|c r IH]; simpl; [reflexivity|].
  rewrite IH. f_equal.
  destruct c as [[] [] [] [] [] [] [] []]; reflexivity.
Qed.

(** A word of letters that does not occur in the lower-case form of a name
    does not occur in its normal form. *)
Lemma not_in_norm w n :
  every no_space_char w = true -> every no_quote_char w = true ->
  contains w (lower n) = false -> contains w (_norm n) = false.
Proof.
  intros Hs Hq H. destruct (contains w (_norm n)) eqn:E; [|reflexivity].
  rewrite norm_eq in E. apply (contains_join_split _ _ Hs) in E.
  rewrite lower_unquote_comm in E. apply (contains_unquote _ _ Hq) in E.
  congruence.
Qed.

(** ** Running mates and party codes *)

Lemma split1_eq sep s :
  split1 sep s =
  if prefix sep s then [EmptyString; drop (String.length sep) s]
  else match s with
       | EmptyString => [EmptyString]
       | String c r =>
           match split1 sep r with
           | [a; b] => [String c a; b]
           | _ => [s]
           end
       end.
Proof. destruct s; reflexivity. Qed.

Lemma prefix_app p s :
  prefix p s = true -> s = p ++ drop (String.length p) s.
Proof.
  revert s. induction p as [|c p IH]; intros s H; [reflexivity|].
  destruct s as [|d s]; [discriminate|].
  simpl in H. apply andb_true_iff in H. destruct H as [Hc Hp].
  apply Ascii.eqb_eq in Hc. subst d.
  simpl. f_equal. apply IH, Hp.
Qed.

(** When [split1] cuts, it cuts at an occurrence of the separator. *)
Lemma split1_two sep s a b :
  split1 sep s = [a; b] -> s = a ++ sep ++ b.
Proof.
  revert a. induction s as [|c r IH]; intros a H; rewrite split1_eq in H.
  - destruct (prefix sep "") eqn:E; [|discriminate].
    injection H as <- <-. apply (prefix_app _ _ E).
  - destruct (prefix sep (String c r)) eqn:E.
    + injection H as <- <-. apply (prefix_app _ _ E).
    + destruct (split1 sep r) as [|a' [|b' [|? ?]]]; try discriminate.
      injection H as <- <-. simpl. f_equal. apply IH. reflexivity.
Qed.

(** [split1] cuts as soon as the separator occurs. *)
Lemma contains_split1 sep s :
  contains sep s = true -> exists a b, split1 sep s = [a; b].
Proof.
  induction s as [|c r IH]; intros H; rewrite split1_eq.
  - cbn [contains] in H. rewrite orb_false_r in H. rewrite H. eauto.
  - cbn [contains] in H. destruct (prefix sep (String c r)); [eauto|].
    simpl in H. destruct (IH H) as (a & b & ->). eauto.
Qed.

Lemma split1_none sep s :
  contains sep s = false -> split1 sep s = [s].
Proof.
  induction s as [|c r IH]; intros H; rewrite split1_eq;
    cbn [contains] in H; apply orb_false_iff in H; destruct H as [Hp Hr];
    rewrite Hp; [reflexivity|].
  rewrite (IH Hr). reflexivity.
Qed.

(** No slash before the cut of [split1 "/"]. *)
Lemma split1_slash_first s a b :
  split1 "/" s = [a; b] -> contains "/" a = false.
Proof.
  revert a. induction s as [|c r IH]; intros a H; rewrite split1_eq in H.
  - discriminate.
  - destruct (prefix "/" (String c r)) eqn:E.
    + injection H as <- <-. reflexivity.
    + destruct (split1 "/" r) as [|a' [|b' [|? ?]]]; try discriminate.
      injection H as <- <-. simpl contains.
      rewrite (IH a' eq_refl), orb_false_r.
      cbn [prefix] in E |- *. rewrite andb_true_r in *. exact E.
Qed.

Lemma prefix_map_chars f p s :
  prefix p s = true -> prefix (map_chars f p) (map_chars f s) = true.
Proof.
  revert s. induction p as [|a p IH]; intros [|c s] H; try reflexivity;
    try discriminate.
  simpl in H |- *. apply andb_true_iff in H. destruct H as [Hc Hp].
  apply Ascii.eqb_eq in Hc. subst c.
  rewrite Ascii.eqb_refl, (IH _ Hp). reflexivity.
Qed.

Lemma contains_map_chars f sub s :
  contains sub s = true -> contains (map_chars f sub) (map_chars f s) = true.
Proof.
  induction s as [|c r IH]; cbn [contains map_chars]; intros H;
    apply orb_true_iff in H; destruct H as [H | H].
  - pose proof (prefix_map_chars f _ _ H) as P. cbn [map_chars] in P.
    rewrite P. reflexivity.
  - discriminate.
  - pose proof (prefix_map_chars f _ _ H) as P. cbn [map_chars] in P.
    rewrite P. reflexivity.
  - rewrite (IH H). apply orb_true_r.
Qed.

(** What [remove_running_mate] computes on every name, by the shape of the
    trimmed name [c]:  a name with a slash is cut at its first slash; a name
    whose lower-case form has " and " is cut at its first " and " when it
    has one in lower case, and is otherwise kept whole; any other name is
    kept. *)
Lemma remove_running_mate_cases name :
  let c := strip name in
  let r := remove_running_mate name in
  (c = "" -> r = "")
  /\ (contains "/" c = true ->
      exists a b, c = a ++ "/" ++ b /\ contains "/" a = false /\ r = strip a)
  /\ (c <> "" -> contains "/" c = false -> contains " and " c = true ->
      exists a b, c = a ++ " and " ++ b /\ r = strip a)
  /\ (contains "/" c = false -> contains " and " c = false -> r = c).
Proof.
  cbv zeta. unfold remove_running_mate. rewrite or_else_empty.
  set (c := strip name).
  repeat split.
  - intros ->. reflexivity.
  - intros H. destruct c as [|x c']; [discriminate|].
    cbn [truthy negb]. rewrite H.
    destruct (contains_split1 _ _ H) as (a & b & E).
    exists a, b. rewrite E.
    split; [apply (split1_two _ _ _ _ E)|].
    split; [apply (split1_slash_first _ _ _ E) | reflexivity].
  - intros Hne Hs Ha. destruct c as [|x c']; [congruence|].
    cbn [truthy negb]. rewrite Hs.
    destruct (contains_split1 _ _ Ha) as (a & b & E).
    exists a, b. rewrite E.
    split; [apply (split1_two _ _ _ _ E)|].
    pose proof (contains_map_chars lower_char _ _ Ha) as Hl.
    change (contains " and " (lower (String x c')) = true) in Hl.
    rewrite Hl. reflexivity.
  - intros Hs Ha. destruct c as [|x c']; [reflexivity|].
    cbn [truthy negb]. rewrite Hs, (split1_none _ _ Ha).
    destruct (contains " and " (lower (String x c'))); reflexivity.
Qed.

(** The examples of the specification that the script meets. *)
Lemma remove_running_mate_examples :
  remove_running_mate "Smith/Jones" = "Smith"
  /\ remove_running_mate "Smith and Jones" = "Smith"
  /\ remove_running_mate "Smith" = "Smith"
  /\ remove_running_mate "" = "".
Proof. repeat split; reflexivity. Qed.

(** C4: the membership test is made on the lower-case name, the cut on the
    name as written.  A running mate introduced by " AND " (or " And ") is
    detected and then not removed: "Smith AND Jones" is returned whole,
    where the claim promises "Smith". *)
Theorem remove_running_mate_upper_and :
  contains " and " (lower "Smith AND Jones") = true
  /\ split1 " and " "Smith AND Jones" = ["Smith AND Jones"]
  /\ remove_running_mate "Smith AND Jones" = "Smith AND Jones"
  /\ remove_running_mate "Smith AND Jones" <> "Smith"
  /\ remove_running_mate "Smith And Jones" = "Smith And Jones".
Proof. repeat split; try reflexivity. discriminate. Qed.

Lemma get_values {V : Type} (d : dict V) k v :
  get d k = Some v -> In v (values d).
Proof.
  induction d as [|[k' v'] r IH]; simpl; [discriminate|].
  destruct (String.eqb k' k); [intros [= ->]; auto | auto].
Qed.

Lemma PARTY_MAP_codes : Forall three_letters (values PARTY_MAP).
Proof. repeat constructor. Qed.

(** C5, counterexample: a party outside the synonym table keeps its length,
    and it is the party key of its bucket in the tally and in [all_parties]
    of the emitted record. *)
Lemma normalize_party_not_three_letters :
  normalize_party "Constitution" = "CONSTITUTION"
  /\ String.length (normalize_party "Constitution") <> 3%nat
  /\ ~ three_letters (normalize_party "Constitution")
  /\ count_of
       (tally (accumulate (load_namelsad20_lookup md_records) third_party_file))
       "2020" "President" "Allegany County" "CONSTITUTION" "Blankenship"
     = Some 12%Z
  /\ exists s,
       summary_of (results_by_year (build md_records third_party_file))
         "2020" "President" "Allegany County" = Some s
       /\ all_parties s = [("CONSTITUTION", 12%Z)].
Proof.
  split; [reflexivity|]. split; [discriminate|].
  split; [intros H; exact H|]. split; [vm_compute; reflexivity|].
  eexists. split; [vm_compute; reflexivity|]. reflexivity.
Qed.

(** ** Facts about dictionaries *)

Section DictFacts.
Context {V : Type}.
Implicit Types (d : dict V) (k : string) (v : V).

Lemma mem_keys k d : mem k d = true <-> In k (keys d).
Proof.
  unfold mem. induction d as [|[k' v'] r IH]; simpl.
  - split; [discriminate | tauto].
  - destruct (String.eqb_spec k' k) as [->|Hne].
    + split; auto.
    + rewrite IH. split; [auto | intros [H | H]; [congruence | exact H]].
Qed.

Lemma get_in d k v : get d k = Some v -> In (k, v) d.
Proof.
  induction d as [|[k' v'] r IH]; simpl; [discriminate|].
  destruct (String.eqb_spec k' k) as [->|Hne]; [intros [= ->]; auto | auto].
Qed.

Lemma in_get d k v : NoDup (keys d) -> In (k, v) d -> get d k = Some v.
Proof.
  induction d as [|[k' v'] r IH]; simpl; [tauto|].
  intros Hnd [H | H].
  - injection H as -> ->. rewrite String.eqb_refl. reflexivity.
  - inversion Hnd as [|? ? Hnotin Hnd']; subst.
    destruct (String.eqb_spec k' k) as [->|Hne]; [|auto].
    exfalso. apply Hnotin. apply (in_map fst) in H. exact H.
Qed.

Lemma get_upd_same k dflt f d :
  get (upd k dflt f d) k = Some (f (get_or d k dflt)).
Proof.
  unfold get_or. induction d as [|[k' v'] r IH]; simpl.
  - rewrite String.eqb_refl. reflexivity.
  - destruct (String.eqb k' k) eqn:E; simpl; rewrite E; [reflexivity | exact IH].
Qed.

Lemma get_upd_other k k' dflt f d :
  k' <> k -> get (upd k dflt f d) k' = get d k'.
Proof.
  intros Hne. induction d as [|[k0 v0] r IH]; simpl.
  - destruct (String.eqb_spec k k'); [congruence | reflexivity].
  - destruct (String.eqb_spec k0 k) as [->|H0]; simpl.
    + destruct (String.eqb_spec k k'); [congruence | reflexivity].
    + rewrite IH. reflexivity.
Qed.

Lemma keys_upd k dflt f d :
  keys (upd k dflt f d) = if mem k d then keys d else (keys d ++ [k])%list.
Proof.
  unfold mem, keys. induction d as [|[k' v'] r IH]; simpl; [reflexivity|].
  destruct (String.eqb k' k) eqn:E; simpl; [reflexivity|].
  rewrite IH. destruct (get r k); reflexivity.
Qed.

Lemma upd_nodup k dflt f d : NoDup (keys d) -> NoDup (keys (upd k dflt f d)).
Proof.
  intros H. rewrite keys_upd. destruct (mem k d) eqn:E; [exact H|].
  apply NoDup_app; [exact H | repeat constructor; simpl; tauto |].
  intros a Ha [<- | []]. apply mem_keys in Ha. congruence.
Qed.

Lemma upd_all (P : V -> Prop) k dflt f d :
  dict_all P d -> (forall v, P v -> P (f v)) -> P (f dflt) ->
  dict_all P (upd k dflt f d).
Proof.
  unfold dict_all. intros H Hf Hd.
  induction H as [|[k' v'] r Hv Hr IH]; simpl.
  - repeat constructor. exact Hd.
  - destruct (String.eqb k' k); constructor; simpl in *; auto.
Qed.

Lemma dict_all_get (P : V -> Prop) d k v :
  dict_all P d -> get d k = Some v -> P v.
Proof.
  unfold dict_all. rewrite Forall_forall. intros H E.
  apply (H (k, v)), get_in, E.
Qed.

Lemma dict_all_get_or (P : V -> Prop) d k dflt :
  dict_all P d -> P dflt -> P (get_or d k dflt).
Proof.
  intros H Hd. unfold get_or.
  destruct (get d k) eqn:E; [exact (dict_all_get _ _ _ _ H E) | exact Hd].
Qed.

Lemma in_set k v d k' v' :
  In (k', v') (set k v d) -> (k' = k /\ v' = v) \/ In (k', v') d.
Proof.
  unfold set. induction d as [|[k0 v0] r IH]; simpl.
  - intros [[= <- <-] | []]. auto.
  - destruct (String.eqb_spec k0 k) as [->|Hne]; simpl.
    + intros [[= <- <-] | H]; auto.
    + intros [H | H]; [auto|]. destruct (IH H); auto.
Qed.

(** A loop [for k in ks: res[k] = g(k)] over fresh, pairwise distinct
    keys appends them in the order of the loop. *)
Lemma keys_fold_set (g : string -> V) ks d :
  NoDup (keys d ++ ks) ->
  keys (fold_left (fun res k => set k (g k) res) ks d) = (keys d ++ ks)%list.
Proof.
  revert d. induction ks as [|k ks IH]; intros d H; simpl.
  - rewrite app_nil_r. reflexivity.
  - assert (Hk : mem k d = false).
    { destruct (mem k d) eqn:E; [|reflexivity].
      apply mem_keys in E. apply NoDup_remove_2 in H.
      exfalso. apply H, in_or_app. auto. }
    rewrite IH; unfold set; rewrite keys_upd, Hk, <- app_assoc; simpl;
      [reflexivity | exact H].
Qed.

Lemma in_fold_set (g : string -> V) ks d k v :
  In (k, v) (fold_left (fun res k => set k (g k) res) ks d) ->
  In (k, v) d \/ (In k ks /\ v = g k).
Proof.
  revert d. induction ks as [|k0 ks IH]; intros d H; simpl in *; [auto|].
  destruct (IH _ H) as [H1 | [H1 ->]]; [|auto].
  destruct (in_set _ _ _ _ _ H1) as [[-> ->] | H2]; auto.
Qed.

End DictFacts.

(** ** Facts about [sorted] *)

Lemma leb_ltb a b : String.leb a b = true -> a <> b -> String.ltb a b = true.
Proof.
  unfold String.leb, String.ltb. intros H Hne.
  destruct (String.compare a b) eqn:E; try reflexivity; try discriminate.
  apply String.compare_eq_iff in E. contradiction.
Qed.

Lemma sorted_nodup ks : NoDup ks -> NoDup (sorted ks).
Proof. apply Permutation_NoDup, StrSort.Permuted_sort. Qed.

Lemma sorted_in k ks : In k (sorted ks) <-> In k ks.
Proof.
  split; apply Permutation_in;
    [apply Permutation_sym|]; apply StrSort.Permuted_sort.
Qed.

Lemma sorted_increasing ks : NoDup ks -> increasing (sorted ks).
Proof.
  intros H. apply sorted_nodup in H.
  pose proof (StrSort.Sorted_sort ks) as S. fold (sorted ks) in S.
  unfold increasing. induction S as [|a l Sl IH Hd]; constructor.
  - apply IH. inversion H; assumption.
  - destruct Hd as [|b l' Hab]; constructor.
    apply leb_ltb; [exact Hab|].
    intros ->. inversion H as [|? ? Hn _]; subst. apply Hn. left. reflexivity.
Qed.

(** One level of the emitting loops: the keys of the result are the sorted
    keys of the tally at that level. *)
Lemma keys_fold_sorted {V W : Type} (g : string -> W) (t : dict V) :
  NoDup (keys t) ->
  keys (fold_left (fun res k => set k (g k) res) (sorted (keys t)) [])
  = sorted (keys t).
Proof.
  intros H. rewrite keys_fold_set; [reflexivity|].
  simpl. apply sorted_nodup, H.
Qed.

(** ** The tally and the emitted document *)

Lemma fold_left_invariant {A B : Type} (P : A -> Prop) (f : A -> B -> A) l a :
  (forall a x, P a -> P (f a x)) -> P a -> P (fold_left f l a).
Proof.
  intros Hf. revert a. induction l as [|x l IH]; simpl; auto.
Qed.

Lemma add_row_wf lk year acc row :
  wf_tally (tally acc) -> wf_tally (tally (add_row lk year acc row)).
Proof.
  intros [Hk Hv]. unfold add_row.
  destruct (negb (mem _ CONTEST_FILTER)); [split; assumption|].
  cbn [tally]. split.
  - apply upd_nodup, Hk.
  - assert (Hcounty : forall by_contest : ContestTally,
               distinct_keys by_contest
               /\ dict_all (fun by_county : CountyTally => distinct_keys by_county)
                           by_contest ->
               forall c k g,
                 distinct_keys (upd c [] (upd k [] g) by_contest)
                 /\ dict_all (fun by_county : CountyTally => distinct_keys by_county)
                             (upd c [] (upd k [] g) by_contest)).
    { intros bc [H1 H2] c k g. split; [apply upd_nodup, H1|].
      apply upd_all; [exact H2 | intros v; apply upd_nodup
                      | apply upd_nodup; constructor]. }
    apply upd_all; [exact Hv | intros v H; apply Hcounty, H|].
    apply Hcounty. split; constructor.
Qed.

Lemma add_file_wf lk acc f :
  wf_tally (tally acc) -> wf_tally (tally (add_file lk acc f)).
Proof.
  intros H. unfold add_file. destruct (int (take 4 (file_name f))); [|exact H].
  apply (fold_left_invariant (fun a => wf_tally (tally a)));
    [intros; apply add_row_wf; assumption | exact H].
Qed.

Lemma accumulate_wf lk files : wf_tally (tally (accumulate lk files)).
Proof.
  unfold accumulate.
  apply (fold_left_invariant (fun a => wf_tally (tally a)));
    [intros; apply add_file_wf; assumption|].
  split; constructor.
Qed.

(** The year keys of the document are the sorted year keys of the tally;
    likewise for the contests of a year and the counties of a contest. *)
Lemma results_of_tally_keys t :
  distinct_keys t -> keys (results_of_tally t) = sorted (keys t).
Proof. apply keys_fold_sorted. Qed.

Lemma results_of_year_keys year t :
  distinct_keys t -> keys (results_of_year year t) = sorted (keys t).
Proof. apply keys_fold_sorted. Qed.

Lemma results_of_contest_keys year contest t :
  distinct_keys t -> keys (results_of_contest year contest t) = sorted (keys t).
Proof. apply keys_fold_sorted. Qed.

(** C8: in the emitted [results_by_year], the year keys are in increasing
    code-point order, and so are the contest keys of every year and the
    county keys of every contest. *)
Theorem results_by_year_sorted :
  forall (records : list ShapeRecord) (files : list CsvFile),
    let res := results_by_year (build records files) in
    increasing (keys res)
    /\ forall year by_contest,
         In (year, by_contest) res ->
         increasing (keys by_contest)
         /\ forall contest by_county,
              In (contest, by_county) by_contest ->
              increasing (keys by_county).
Proof.
  intros records files. cbv zeta. cbn [results_by_year build].
  destruct (accumulate_wf (load_namelsad20_lookup records) files) as [Hk Hv].
  set (t := tally (accumulate (load_namelsad20_lookup records) files)) in *.
  split.
  - rewrite (results_of_tally_keys _ Hk). apply sorted_increasing, Hk.
  - intros year by_contest Hin.
    apply in_fold_set in Hin. destruct Hin as [[] | [_ ->]].
    assert (Hy : distinct_keys (get_or t year [])
                 /\ dict_all (fun by_county : CountyTally => distinct_keys by_county)
                             (get_or t year [])).
    { apply (dict_all_get_or _ _ _ _ Hv). split; constructor. }
    destruct Hy as [Hyk Hyv]. split.
    + rewrite (results_of_year_keys _ _ Hyk). apply sorted_increasing, Hyk.
    + intros contest by_county Hin.
      apply in_fold_set in Hin. destruct Hin as [[] | [_ ->]].
      assert (Hc : distinct_keys (get_or (get_or t year []) contest [])).
      { apply (dict_all_get_or _ _ _ _ Hyv). constructor. }
      rewrite (results_of_contest_keys _ _ _ Hc). apply sorted_increasing, Hc.
Qed.

Lemma results_by_year_sorted_witness :
  let res := results_by_year (build md_records sample_files) in
  keys res = ["2018"; "2020"]
  /\ increasing (keys (get_or res "2018" []))
  /\ increasing (keys (get_or (get_or res "2018" []) "Governor" [])).
Proof.
  cbv zeta.
  pose proof (results_by_year_sorted md_records sample_files) as P.
  cbv zeta in P. destruct P as [_ P].
  set (res := results_by_year (build md_records sample_files)) in *.
  assert (H1 : In ("2018", get_or res "2018" []) res)
    by (vm_compute; left; reflexivity).
  assert (H2 : In ("Governor", get_or (get_or res "2018" []) "Governor" [])
                  (get_or res "2018" []))
    by (vm_compute; right; left; reflexivity).
  split; [vm_compute; reflexivity|].
  split; [exact (proj1 (P _ _ H1)) | exact (proj2 (P _ _ H1) _ _ H2)].
Defined.

(** ** Vote counts *)

Lemma sum_from (xs : list Z) (a : Z) : fold_left Z.add xs a = (a + sum xs)%Z.
Proof.
  unfold sum. revert a. induction xs as [|x xs IH]; intros a; simpl.
  - lia.
  - rewrite IH, (IH x). lia.
Qed.

Lemma sum_nonneg (d : dict Z) :
  dict_all (fun n => (0 <= n)%Z) d -> (0 <= sum (values d))%Z.
Proof.
  unfold dict_all, values. induction 1 as [|[k v] r Hv Hr IH]; simpl.
  - unfold sum. simpl. lia.
  - unfold sum in *. simpl in *. rewrite sum_from. unfold sum. lia.
Qed.

Lemma upd_all_nested {V : Type} (Q : V -> Prop) k (g : dict V -> dict V)
    (d : dict (dict V)) :
  (forall v, dict_all Q v -> dict_all Q (g v)) ->
  dict_all (dict_all Q) d -> dict_all (dict_all Q) (upd k [] g d).
Proof.
  intros Hg Hd. apply upd_all; [exact Hd | exact Hg | apply Hg; constructor].
Qed.

Lemma row_votes_nonneg_step lk year acc row :
  (0 <= row_votes row)%Z ->
  tally_nonneg (tally acc) -> tally_nonneg (tally (add_row lk year acc row)).
Proof.
  intros Hv H. unfold add_row.
  destruct (negb (mem _ CONTEST_FILTER)); [exact H|].
  cbn [tally]. unfold tally_nonneg in *.
  apply upd_all_nested; [|exact H].
  intros d1 H1. apply upd_all_nested; [|exact H1].
  intros d2 H2. apply upd_all_nested; [|exact H2].
  intros d3 H3. apply upd_all_nested; [|exact H3].
  intros d4 H4. apply upd_all; [exact H4 | intros; lia | lia].
Qed.

Lemma accumulate_nonneg lk files :
  (forall f row, In f files -> In row (file_rows f) -> (0 <= row_votes row)%Z) ->
  tally_nonneg (tally (accumulate lk files)).
Proof.
  unfold accumulate.
  assert (G : forall fs acc,
             (forall f row, In f fs -> In row (file_rows f) ->
                            (0 <= row_votes row)%Z) ->
             tally_nonneg (tally acc) ->
             tally_nonneg (tally (fold_left (add_file lk) fs acc))).
  { induction fs as [|f fs IH]; intros acc Hrows Hacc; simpl; [exact Hacc|].
    apply IH; [intros; eapply Hrows; simpl; eauto|].
    unfold add_file. destruct (int (take 4 (file_name f))); [|exact Hacc].
    assert (R : forall rows a,
               (forall row, In row rows -> (0 <= row_votes row)%Z) ->
               tally_nonneg (tally a) ->
               tally_nonneg (tally (fold_left (add_row lk (take 4 (file_name f))) rows a))).
    { induction rows as [|row rows IHr]; intros a Hr Ha; simpl; [exact Ha|].
      apply IHr; [intros; apply Hr; simpl; auto|].
      apply row_votes_nonneg_step; [apply Hr; simpl; auto | exact Ha]. }
    apply R; [intros; eapply Hrows; simpl; eauto | exact Hacc]. }
  intros H. apply G; [exact H | constructor].
Qed.

Lemma count_of_nonneg t y c co p cand v :
  tally_nonneg t -> count_of t y c co p cand = Some v -> (0 <= v)%Z.
Proof.
  unfold tally_nonneg, count_of. intros H E.
  destruct (get t y) as [d1|] eqn:E1; [|discriminate].
  destruct (get d1 c) as [d2|] eqn:E2; [|discriminate].
  destruct (get d2 co) as [d3|] eqn:E3; [|discriminate].
  destruct (get d3 p) as [d4|] eqn:E4; [|discriminate].
  pose proof (dict_all_get _ _ _ _ H E1) as H1.
  pose proof (dict_all_get _ _ _ _ H1 E2) as H2.
  pose proof (dict_all_get _ _ _ _ H2 E3) as H3.
  pose proof (dict_all_get _ _ _ _ H3 E4) as H4.
  exact (dict_all_get _ _ _ _ H4 E).
Qed.

Lemma summarise_nonneg year contest county (by_party : PartyTally) :
  dict_all (dict_all (fun n => (0 <= n)%Z)) by_party ->
  let s := summarise year contest county by_party in
  (0 <= dem_votes s)%Z /\ (0 <= rep_votes s)%Z /\ (0 <= total_votes s)%Z
  /\ dict_all (fun n => (0 <= n)%Z) (all_parties s).
Proof.
  intros H. cbv zeta. cbn [summarise dem_votes rep_votes total_votes all_parties].
  assert (Ht : dict_all (fun n => (0 <= n)%Z)
                 (map (fun pc : string * CandTally => (fst pc, sum (values (snd pc))))
                      by_party)).
  { unfold dict_all in *. induction H as [|[k v] r Hv Hr IH]; simpl;
      constructor; [apply sum_nonneg, Hv | exact IH]. }
  repeat split; try (apply dict_all_get_or; [exact Ht | lia]).
  - apply sum_nonneg, Ht.
  - exact Ht.
Qed.

(** The record stored for a bucket is the summary of that bucket. *)
Lemma summary_of_results t y c co s :
  summary_of (results_of_tally t) y c co = Some s ->
  s = summarise y c co (get_or (get_or (get_or t y []) c []) co []).
Proof.
  unfold summary_of. intros E.
  destruct (get (results_of_tally t) y) as [r1|] eqn:E1; [|discriminate].
  destruct (get r1 c) as [r2|] eqn:E2; [|discriminate].
  apply get_in, in_fold_set in E1. destruct E1 as [[] | [_ ->]].
  apply get_in, in_fold_set in E2. destruct E2 as [[] | [_ ->]].
  apply get_in, in_fold_set in E. destruct E as [[] | [_ ->]].
  reflexivity.
Qed.

(** A counted row adds its votes to its own bucket, creating the bucket when
    it is new. *)
Lemma count_of_add_row lk year acc row :
  mem (row_contest row) CONTEST_FILTER = true ->
  count_of (tally (add_row lk year acc row)) year (row_contest row)
           (row_county lk row) (row_party row) (row_candidate row)
  = Some (count_or_zero (tally acc) year (row_contest row)
            (row_county lk row) (row_party row) (row_candidate row)
          + row_votes row)%Z.
Proof.
  intros Hm. unfold add_row.
  fold (row_contest row). rewrite Hm. cbn [negb tally].
  fold (row_county lk row) (row_party row) (row_candidate row).
  unfold count_or_zero, count_of.
  rewrite !get_upd_same. unfold get_or.
  destruct (get (tally acc) year) as [d1|]; [|reflexivity].
  destruct (get d1 (row_contest row)) as [d2|]; [|reflexivity].
  destruct (get d2 (row_county lk row)) as [d3|]; [|reflexivity].
  destruct (get d3 (row_party row)) as [d4|]; [|reflexivity].
  destruct (get d4 (row_candidate row)); reflexivity.
Qed.

(** C3, counterexample: the literal "-5" is an integer, so the row stores a
    negative count, and the party total and the total of its record are
    negative. *)
Lemma negative_votes_are_stored :
  row_votes (csv_row "President" "Allegany" "DEM" "Smith" "-5") = (-5)%Z
  /\ count_of (tally (accumulate (load_namelsad20_lookup md_records) negative_file))
       "2020" "President" "Allegany County" "DEM" "Smith" = Some (-5)%Z
  /\ exists s,
       summary_of (results_by_year (build md_records negative_file))
         "2020" "President" "Allegany County" = Some s
       /\ (dem_votes s < 0)%Z /\ (total_votes s < 0)%Z
       /\ all_parties s = [("DEM", (-5)%Z)].
Proof.
  split; [reflexivity|]. split; [vm_compute; reflexivity|].
  eexists. split; [vm_compute; reflexivity|].
  cbn. repeat split; reflexivity.
Qed.

(** ** The lookup table *)

(** The group of a key lists, in the order of the reference, the full names
    of the records of the state whose short name normalises to the key. *)
Lemma lookup_group_from records acc k :
  get_or (fold_left load_step records acc) k [] =
  (get_or acc k [] ++ map NAMELSAD20 (filter (in_group k) records))%list.
Proof.
  revert acc. induction records as [|r rs IH]; intros acc; simpl.
  - rewrite app_nil_r. reflexivity.
  - rewrite IH. unfold load_step, in_group, in_state.
    destruct (String.eqb (STATEFP20 r) "24"); cbn [negb andb]; [|reflexivity].
    destruct (String.eqb_spec (_norm (NAME20 r)) k) as [->|Hne].
    + unfold get_or at 1. rewrite get_upd_same. simpl.
      rewrite <- app_assoc. reflexivity.
    + unfold get_or at 1. rewrite get_upd_other by congruence. reflexivity.
Qed.

Lemma lookup_group records k :
  get_or (load_namelsad20_lookup records) k [] =
  map NAMELSAD20 (filter (in_group k) records).
Proof. apply (lookup_group_from records [] k). Qed.

Lemma lookup_distinct_keys records :
  distinct_keys (load_namelsad20_lookup records).
Proof.
  unfold load_namelsad20_lookup.
  apply (fold_left_invariant (fun d : dict (list string) => distinct_keys d));
    [|constructor].
  intros d r H. destruct (negb _); [exact H | apply upd_nodup, H].
Qed.

(** Every value of the lookup is the full name of a record of the state,
    filed under the normal form of its short name. *)
Lemma lookup_value records k group name :
  In (k, group) (load_namelsad20_lookup records) -> In name group ->
  get_or (load_namelsad20_lookup records) k [] = group
  /\ exists r, In r records /\ in_state r = true
               /\ _norm (NAME20 r) = k /\ NAMELSAD20 r = name.
Proof.
  intros Hin Hname.
  apply (in_get _ _ _ (lookup_distinct_keys records)) in Hin.
  assert (G : get_or (load_namelsad20_lookup records) k [] = group)
    by (unfold get_or; rewrite Hin; reflexivity).
  split; [exact G|].
  rewrite lookup_group in G. rewrite <- G in Hname.
  apply in_map_iff in Hname. destruct Hname as (r & Hr & Hf).
  apply filter_In in Hf. destruct Hf as [Hf Hg].
  unfold in_group in Hg. apply andb_true_iff in Hg. destruct Hg as [Hs Hk].
  apply String.eqb_eq in Hk. exists r. auto.
Qed.

Lemma group_member records r :
  In r records -> in_state r = true ->
  In (NAMELSAD20 r) (get_or (load_namelsad20_lookup records) (_norm (NAME20 r)) []).
Proof.
  intros Hr Hs. rewrite lookup_group. apply in_map, filter_In.
  split; [exact Hr|]. unfold in_group. rewrite Hs, String.eqb_refl. reflexivity.
Qed.

(** ** County resolution *)

(** C7: when the "baltimore" group of the lookup has an entry whose
    lower-case form contains " city", every county string that normalises
    to "baltimore city" resolves to the first such entry of that group. *)
Theorem to_namelsad20_baltimore_city :
  forall (county : string) (by_name : dict (list string)) (x : string),
    _norm county = "baltimore city" ->
    In x (get_or by_name "baltimore" []) ->
    contains " city" (lower x) = true ->
    let r := to_namelsad20 county by_name in
    find (fun z => contains " city" (lower z)) (get_or by_name "baltimore" [])
      = Some r
    /\ In r (get_or by_name "baltimore" [])
    /\ contains " city" (lower r) = true.
Proof.
  intros county0 by_name x Hn Hin Hx r. subst r.
  destruct (first_with_found " city" _ x ltac:(discriminate) Hin Hx)
    as (y & Hfw & Hfind & Hy & Hyc).
  unfold to_namelsad20. rewrite norm_raw, Hn. cbn [String.eqb Ascii.eqb Bool.eqb].
  rewrite Hfw. auto.
Qed.

Lemma to_namelsad20_baltimore_city_witness :
  let by_name := [("baltimore", ["Baltimore County"; "Baltimore city"])] in
  _norm " BALTIMORE   City " = "baltimore city"
  /\ find (fun z => contains " city" (lower z)) (get_or by_name "baltimore" [])
     = Some (to_namelsad20 " BALTIMORE   City " by_name).
Proof.
  split; [reflexivity|].
  exact (proj1 (to_namelsad20_baltimore_city " BALTIMORE   City "
                  [("baltimore", ["Baltimore County"; "Baltimore city"])]
                  "Baltimore city" eq_refl (or_intror (or_introl eq_refl))
                  eq_refl)).
Defined.

(** C10: on the empty county string, and on any string of white space, with
    a lookup that has no entry for the empty base key, the resolver returns
    the synthetic fallback " County". *)
Theorem to_namelsad20_blank :
  forall (county : string) (by_name : dict (list string)),
    blank county = true ->
    mem "" by_name = false ->
    to_namelsad20 county by_name = " County".
Proof.
  intros county0 by_name Hb Hm.
  unfold to_namelsad20. rewrite (blank_strip _ Hb). cbn.
  unfold mem in Hm. unfold get_or.
  destruct (get by_name "") eqn:E; [discriminate | reflexivity].
Qed.

Lemma to_namelsad20_blank_witness :
  to_namelsad20 "   " [("kent", ["Kent County"])] = " County"
  /\ to_namelsad20 "" [] = " County".
Proof.
  split.
  - apply (to_namelsad20_blank "   " [("kent", ["Kent County"])]); reflexivity.
  - apply (to_namelsad20_blank "" []); reflexivity.
Defined.

(** ** Resolving a canonical name *)

Lemma lower_app a b : lower (a ++ b) = lower a ++ lower b.
Proof. apply map_chars_app. Qed.

Lemma first_with_only sub xs name :
  sub <> "" -> In name xs -> contains sub (lower name) = true ->
  (forall y, In y xs -> contains sub (lower y) = true -> y = name) ->
  first_with sub xs = Some name.
Proof.
  intros Hsub Hin Hc Huniq.
  destruct (first_with_found sub xs name Hsub Hin Hc) as (y & Hfw & _ & Hy & Hyc).
  rewrite Hfw. f_equal. apply Huniq; assumption.
Qed.

(** A full name "<short> County" resolves to itself when its group elects
    it among the entries that read as counties. *)
Lemma resolve_county_kind (by_name : dict (list string)) n :
  blank n = false ->
  In (n ++ " County") (get_or by_name (_norm n) []) ->
  contains "city" (_norm n) = false ->
  first_with " county" (get_or by_name (_norm n) []) = Some (n ++ " County") ->
  to_namelsad20 (n ++ " County") by_name = n ++ " County".
Proof.
  intros Hn Hin Hcity Hfw.
  unfold to_namelsad20. cbv zeta. rewrite norm_raw, (norm_app_county _ Hn).
  set (k := _norm n) in *.
  assert (Hsp : String.eqb (k ++ " county") "baltimore city" = false).
  { apply String.eqb_neq. intros E.
    pose proof (endswith_app k " county") as S. rewrite E in S. discriminate. }
  rewrite Hsp, endswith_app.
  change 7%nat with (String.length " county").
  rewrite drop_last_app, (strip_norm n : strip k = k).
  assert (Hno : contains "city" (k ++ " county") = false)
    by (apply contains_app_false;
        [exact seam_city_word | reflexivity | exact Hcity]).
  rewrite Hno, Hfw.
  destruct (get_or by_name k []) as [|a [|b rest]].
  - destruct Hin.
  - destruct Hin as [-> | []]. reflexivity.
  - reflexivity.
Qed.

(** A full name "<short> city" resolves to itself when its group elects it
    among the entries that read as cities. *)
Lemma resolve_city_kind (by_name : dict (list string)) n :
  blank n = false ->
  In (n ++ " city") (get_or by_name (_norm n) []) ->
  first_with " city" (get_or by_name (_norm n) []) = Some (n ++ " city") ->
  to_namelsad20 (n ++ " city") by_name = n ++ " city".
Proof.
  intros Hn Hin Hfw.
  unfold to_namelsad20. cbv zeta. rewrite norm_raw, (norm_app_city _ Hn).
  set (k := _norm n) in *.
  destruct (String.eqb_spec (k ++ " city") "baltimore city") as [E | _].
  - change "baltimore city" with ("baltimore" ++ " city") in E.
    apply app_inv_tail_s in E. rewrite <- E, Hfw. reflexivity.
  - rewrite endswith_city_county, endswith_app.
    change 5%nat with (String.length " city").
    rewrite drop_last_app, (strip_norm n : strip k = k).
    assert (Hyes : contains "city" (k ++ " city") = true)
      by (apply contains_app_r; reflexivity).
    rewrite Hyes, Hfw.
    destruct (get_or by_name k []) as [|a [|b rest]].
    + destruct Hin.
    + destruct Hin as [-> | []]. reflexivity.
    + reflexivity.
Qed.

Lemma reference_ok_inv records :
  reference_ok records = true ->
  forall r, In r records -> in_state r = true ->
    county_shaped r = true
    /\ forall r', In r' records -> in_state r' = true -> agree r r' = true.
Proof.
  unfold reference_ok. intros H r Hr Hs.
  apply andb_true_iff in H. destruct H as [H1 H2].
  rewrite forallb_forall in H1, H2.
  assert (Hf : In r (filter in_state records)) by (apply filter_In; auto).
  split; [apply H1, Hf|].
  intros r' Hr' Hs'. specialize (H2 r Hf). rewrite forallb_forall in H2.
  apply H2, filter_In. auto.
Qed.

Lemma plain_name_inv n :
  plain_name n = true ->
  blank n = false
  /\ contains "city" (lower n) = false
  /\ contains "county" (lower n) = false.
Proof.
  unfold plain_name. intros H.
  apply andb_true_iff in H. destruct H as [H H3].
  apply andb_true_iff in H. destruct H as [H1 H2].
  rewrite negb_true_iff in H1, H2, H3. auto.
Qed.

Lemma agree_inv r1 r2 suf :
  agree r1 r2 = true ->
  suf = " County" \/ suf = " city" ->
  _norm (NAME20 r1) = _norm (NAME20 r2) ->
  has_suffix r1 suf = true -> has_suffix r2 suf = true ->
  NAMELSAD20 r2 = NAMELSAD20 r1.
Proof.
  unfold agree. intros H Hsuf Hk H1 H2.
  rewrite Hk, String.eqb_refl in H.
  assert (P : (has_suffix r1 " County" && has_suffix r2 " County"
               || has_suffix r1 " city" && has_suffix r2 " city")%bool = true).
  { destruct Hsuf; subst suf; rewrite H1, H2; [reflexivity | apply orb_true_r]. }
  rewrite P in H. simpl in H. apply String.eqb_eq in H. congruence.
Qed.

(** No full name of the shape "<plain> city" reads as a county, and none
    of the shape "<plain> County" reads as a city. *)
Lemma city_not_county n :
  contains "county" (lower n) = false ->
  contains " county" (lower (n ++ " city")) = false.
Proof.
  intros H. rewrite lower_app.
  apply contains_app_false;
    [exact seam_county_city | reflexivity | apply not_contains_tail, H].
Qed.

Lemma county_not_city n :
  contains "city" (lower n) = false ->
  contains " city" (lower (n ++ " County")) = false.
Proof.
  intros H. rewrite lower_app.
  apply contains_app_false;
    [exact seam_city_county | reflexivity | apply not_contains_tail, H].
Qed.

(** C6, on a reference of the Maryland shape: when every record of the
    state has a full name made of its short name and " County" or " city",
    a short name that is not blank and contains neither "city" nor "county"
    in any letter case, and records of one group and one kind carry one
    full name, every value of the lookup built from the reference resolves
    to itself with that lookup. *)
Theorem to_namelsad20_idempotent_on_shaped_reference :
  forall records : list ShapeRecord,
    reference_ok records = true ->
    forall (base : string) (group : list string) (name : string),
      In (base, group) (load_namelsad20_lookup records) ->
      In name group ->
      to_namelsad20 name (load_namelsad20_lookup records) = name.
Proof.
  intros records Hok base group name Hgroup Hname.
  destruct (lookup_value records base group name Hgroup Hname)
    as (_ & r & Hr & Hs & _ & <-).
  destruct (reference_ok_inv records Hok r Hr Hs) as [Hshape Hagree].
  unfold county_shaped in Hshape. apply andb_true_iff in Hshape.
  destruct Hshape as [Hkind Hplain].
  apply plain_name_inv in Hplain. destruct Hplain as (Hb & Hcity & Hcounty).
  pose proof (group_member records r Hr Hs) as Hmem.
  (* every entry of the group of [r] comes from a record of the same shape *)
  assert (Hentries : forall y,
             In y (get_or (load_namelsad20_lookup records) (_norm (NAME20 r)) []) ->
             exists r', In r' records /\ in_state r' = true
                        /\ _norm (NAME20 r') = _norm (NAME20 r)
                        /\ NAMELSAD20 r' = y).
  { intros y Hy. rewrite lookup_group in Hy.
    apply in_map_iff in Hy. destruct Hy as (r' & <- & Hf).
    apply filter_In in Hf. destruct Hf as [Hr' Hg].
    unfold in_group in Hg. apply andb_true_iff in Hg. destruct Hg as [Hs' Hk'].
    apply String.eqb_eq in Hk'. exists r'. auto. }
  destruct (has_suffix r " County") eqn:HC.
  - (* a county *)
    pose proof HC as E. unfold has_suffix in E. apply String.eqb_eq in E.
    rewrite E in *.
    apply resolve_county_kind; [exact Hb | exact Hmem | |].
    + apply not_in_norm; [reflexivity | reflexivity | exact Hcity].
    + apply first_with_only; [discriminate | exact Hmem | |].
      * rewrite lower_app. apply contains_app_r. reflexivity.
      * intros y Hy Hyc.
        destruct (Hentries y Hy) as (r' & Hr' & Hs' & Hk' & <-).
        destruct (reference_ok_inv records Hok r' Hr' Hs') as [Hshape' _].
        unfold county_shaped in Hshape'. apply andb_true_iff in Hshape'.
        destruct Hshape' as [Hkind' Hplain'].
        apply plain_name_inv in Hplain'. destruct Hplain' as (_ & _ & Hcounty').
        destruct (has_suffix r' " County") eqn:HC'.
        -- rewrite <- E.
           apply (agree_inv r r' " County"); auto.
        -- simpl in Hkind'. pose proof Hkind' as E'.
           unfold has_suffix in E'. apply String.eqb_eq in E'.
           rewrite E', (city_not_county _ Hcounty') in Hyc. discriminate.
  - (* a city *)
    simpl in Hkind. pose proof Hkind as E.
    unfold has_suffix in E. apply String.eqb_eq in E.
    rewrite E in *.
    apply resolve_city_kind; [exact Hb | exact Hmem |].
    apply first_with_only; [discriminate | exact Hmem | |].
    + rewrite lower_app. apply contains_app_r. reflexivity.
    + intros y Hy Hyc.
      destruct (Hentries y Hy) as (r' & Hr' & Hs' & Hk' & <-).
      destruct (reference_ok_inv records Hok r' Hr' Hs') as [Hshape' _].
      unfold county_shaped in Hshape'. apply andb_true_iff in Hshape'.
      destruct Hshape' as [Hkind' Hplain'].
      apply plain_name_inv in Hplain'. destruct Hplain' as (_ & Hcity' & _).
      destruct (has_suffix r' " County") eqn:HC'.
      * pose proof HC' as E'. unfold has_suffix in E'. apply String.eqb_eq in E'.
        rewrite E', (county_not_city _ Hcity') in Hyc. discriminate.
      * simpl in Hkind'. rewrite <- E.
        apply (agree_inv r r' " city"); auto.
Qed.

Lemma to_namelsad20_idempotent_on_shaped_reference_witness :
  reference_ok md_records = true
  /\ to_namelsad20 "Baltimore city" (load_namelsad20_lookup md_records)
     = "Baltimore city"
  /\ to_namelsad20 "Baltimore County" (load_namelsad20_lookup md_records)
     = "Baltimore County"
  /\ to_namelsad20 "St. Mary's County" (load_namelsad20_lookup md_records)
     = "St. Mary's County".
Proof.
  assert (Hok : reference_ok md_records = true) by (vm_compute; reflexivity).
  split; [exact Hok|].
  pose proof (to_namelsad20_idempotent_on_shaped_reference md_records Hok) as P.
  split; [|split].
  - apply (P "baltimore" ["Baltimore County"; "Baltimore city"]);
      [vm_compute; tauto | simpl; tauto].
  - apply (P "baltimore" ["Baltimore County"; "Baltimore city"]);
      [vm_compute; tauto | simpl; tauto].
  - apply (P "st. mary's" ["St. Mary's County"]);
      [vm_compute; tauto | simpl; tauto].
Defined.

(** C6, counterexample: a full name that is not "<short> County" or
    "<short> city" is a value of the lookup and does not resolve to itself. *)
Lemma to_namelsad20_not_idempotent :
  In ("orleans", ["Orleans Parish"]) (load_namelsad20_lookup parish_records)
  /\ In "Orleans Parish" ["Orleans Parish"]
  /\ to_namelsad20 "Orleans Parish" (load_namelsad20_lookup parish_records)
     = "Orleans Parish County"
  /\ to_namelsad20 "Orleans Parish" (load_namelsad20_lookup parish_records)
     <> "Orleans Parish".
Proof.
  split; [left; reflexivity|]. split; [left; reflexivity|].
  split; [reflexivity | discriminate].
Qed.

(** ** More on the name normalisers *)

Lemma lstrip_idem s : lstrip (lstrip s) = lstrip s.
Proof.
  induction s as [|c r IH]; [reflexivity|].
  simpl. destruct (isspace c) eqn:E; [exact IH|]. simpl. rewrite E. reflexivity.
Qed.

Lemma rstrip_cons c x :
  rstrip (String c x) =
  match rstrip x with
  | EmptyString => if isspace c then EmptyString else String c EmptyString
  | r' => String c r'
  end.
Proof. reflexivity. Qed.

Lemma rstrip_idem s : rstrip (rstrip s) = rstrip s.
Proof.
  induction s as [|c r IH]; [reflexivity|].
  rewrite rstrip_cons. destruct (rstrip r) as [|d t] eqn:E.
  - destruct (isspace c) eqn:Ec; [reflexivity|]. simpl. rewrite Ec. reflexivity.
  - rewrite rstrip_cons, IH. reflexivity.
Qed.

Lemma lstrip_head s c r : lstrip s = String c r -> isspace c = false.
Proof.
  induction s as [|d s IH]; [discriminate|].
  simpl. destruct (isspace d) eqn:E; [exact IH|]. intros [= <- _]. exact E.
Qed.

Lemma rstrip_lstrip_comm s : rstrip (lstrip s) = lstrip (rstrip s).
Proof.
  induction s as [|c r IH]; [reflexivity|].
  cbn [lstrip]. rewrite rstrip_cons. destruct (isspace c) eqn:Ec.
  - rewrite IH. destruct (rstrip r) as [|d t] eqn:E; cbn [lstrip]; rewrite ?Ec;
      reflexivity.
  - rewrite rstrip_cons. destruct (rstrip r) as [|d t]; cbn [lstrip]; rewrite ?Ec;
      reflexivity.
Qed.

Lemma strip_idem s : strip (strip s) = strip s.
Proof.
  unfold strip.
  rewrite (rstrip_lstrip_comm (rstrip s)), rstrip_idem. apply lstrip_idem.
Qed.

Lemma lstrip_suffix s : exists t, s = t ++ lstrip s.
Proof.
  induction s as [|c r [t IH]]; [exists ""; reflexivity|].
  simpl. destruct (isspace c).
  - exists (String c t). simpl. congruence.
  - exists "". reflexivity.
Qed.

Lemma rstrip_prefix s : exists t, s = rstrip s ++ t.
Proof.
  induction s as [|c r [t IH]]; [exists ""; reflexivity|].
  rewrite rstrip_cons. destruct (rstrip r) as [|d u].
  - destruct (isspace c).
    + exists (String c r). reflexivity.
    + exists t. simpl in *. congruence.
  - exists t. simpl in *. congruence.
Qed.

(** A factor of the trimmed text is a factor of the text. *)
Lemma contains_strip w s : contains w (strip s) = true -> contains w s = true.
Proof.
  unfold strip. intros H.
  destruct (lstrip_suffix (rstrip s)) as [t Ht].
  destruct (rstrip_prefix s) as [u Hu].
  rewrite Hu. apply contains_app_l. rewrite Ht. apply contains_app_r, H.
Qed.

Lemma not_contains_strip w s :
  contains w s = false -> contains w (strip s) = false.
Proof.
  intros H. destruct (contains w (strip s)) eqn:E; [|reflexivity].
  apply contains_strip in E. congruence.
Qed.

Lemma not_contains_app_l w a b :
  contains w (a ++ b) = false -> contains w a = false.
Proof.
  intros H. destruct (contains w a) eqn:E; [|reflexivity].
  apply (contains_app_l _ _ b) in E. congruence.
Qed.

(** X1: a row passes the contest filter exactly when its trimmed office is
    one of the four offices named in full or starts with "Comptroller". *)
Theorem contest_counted_iff :
  forall office : string,
    mem (normalize_contest_name office) CONTEST_FILTER = true <->
    (startswith (strip office) "Comptroller" = true
     \/ In (strip office)
           ["President"; "Governor"; "U.S. Senator"; "Attorney General"]).
Proof.
  intros o. unfold normalize_contest_name.
  destruct (startswith (strip o) "Comptroller") eqn:E.
  - split; [auto | reflexivity].
  - unfold mem, CONTEST_FILTER. cbn [get In].
    repeat match goal with
      | |- context [String.eqb ?a (strip o)] =>
          destruct (String.eqb_spec a (strip o))
      end;
      try (split; [intros _; right; tauto | reflexivity]).
    + rewrite <- e in E. discriminate.
    + split; [discriminate|]. intros [H | H]; [discriminate | tauto].
Qed.

(** X2: normalising a contest name twice changes nothing more. *)
Theorem normalize_contest_name_idempotent :
  forall office : string,
    normalize_contest_name (normalize_contest_name office)
    = normalize_contest_name office.
Proof.
  intros o. unfold normalize_contest_name.
  destruct (startswith (strip o) "Comptroller") eqn:E; [reflexivity|].
  rewrite strip_idem, E. reflexivity.
Qed.

Lemma isspace_upper_char c : isspace (upper_char c) = isspace c.
Proof. destruct c as [[] [] [] [] [] [] [] []]; reflexivity. Qed.

Lemma upper_strip s : upper (strip s) = strip (upper s).
Proof. apply map_chars_strip, isspace_upper_char. Qed.

Lemma map_chars_compose f g s :
  map_chars f (map_chars g s) = map_chars (fun c => f (g c)) s.
Proof. induction s; simpl; congruence. Qed.

Lemma map_chars_ext f g s :
  (forall c, f c = g c) -> map_chars f s = map_chars g s.
Proof. intros H. induction s; simpl; congruence. Qed.

Lemma lower_upper_lower s : lower (upper (lower s)) = lower s.
Proof.
  unfold lower, upper. rewrite !map_chars_compose. apply map_chars_ext.
  intros c. destruct c as [[] [] [] [] [] [] [] []]; reflexivity.
Qed.

Lemma upper_idem s : upper (upper s) = upper s.
Proof.
  unfold upper. rewrite map_chars_compose. apply map_chars_ext.
  intros c. destruct c as [[] [] [] [] [] [] [] []]; reflexivity.
Qed.

Lemma PARTY_MAP_fixed :
  Forall (fun c => normalize_party c = c /\ strip c = c /\ upper c = c
                   /\ c <> "")
         (values PARTY_MAP).
Proof. repeat constructor; discriminate. Qed.

(** The three ways in which [normalize_party] produces its value. *)
Lemma normalize_party_shape party :
  let q := lower (strip party) in
  (exists c, In c (values PARTY_MAP) /\ normalize_party party = c)
  \/ normalize_party party = "OTH"
  \/ (q <> "" /\ get PARTY_MAP q = None /\ normalize_party party = upper q).
Proof.
  cbv zeta. unfold normalize_party. rewrite or_else_empty.
  destruct (get PARTY_MAP (lower (strip party))) as [c|] eqn:E.
  - left. exists c. split; [apply (get_values _ _ _ E) | reflexivity].
  - destruct (lower (strip party)) as [|x q'] eqn:Q; cbn [truthy negb].
    + right. left. reflexivity.
    + right. right. split; [discriminate|]. split; reflexivity.
Qed.

(** The upper-case form of a trimmed lower-case text is trimmed, and its
    lower-case form is the text. *)
Lemma upper_key_fixed party :
  let q := lower (strip party) in
  strip (upper q) = upper q /\ lower (upper q) = q.
Proof.
  cbv zeta. split.
  - rewrite <- upper_strip, <- lower_strip, strip_idem. reflexivity.
  - apply lower_upper_lower.
Qed.

Lemma normalize_party_fixed party :
  normalize_party (normalize_party party) = normalize_party party
  /\ normalize_party party <> "".
Proof.
  destruct (normalize_party_shape party) as [(c & Hc & ->) | [-> | (Hq & E & ->)]].
  - pose proof PARTY_MAP_fixed as F. rewrite Forall_forall in F.
    destruct (F c Hc) as (F1 & _ & _ & F4). auto.
  - split; [reflexivity | discriminate].
  - destruct (upper_key_fixed party) as [Hs Hl]. cbv zeta in Hs, Hl. split.
    + unfold normalize_party. rewrite or_else_empty, Hs, Hl, E.
      destruct (lower (strip party)); [congruence | reflexivity].
    + destruct (lower (strip party)); [congruence | discriminate].
Qed.

(** X3: a value returned by [normalize_party] is never empty and has no
    outer white space; for a party text of the ASCII range it is moreover a
    fixed point of [normalize_party] and has no lower-case letter. *)
Theorem normalize_party_idempotent :
  forall party : string,
    let code := normalize_party party in
    code <> ""
    /\ strip code = code
    /\ (is_ascii party = true ->
        normalize_party code = code /\ upper code = code).
Proof.
  intros party0. cbv zeta.
  destruct (normalize_party_shape party0)
    as [(c & Hc & ->) | [-> | (Hq & E & ->)]].
  - pose proof PARTY_MAP_fixed as F. rewrite Forall_forall in F.
    destruct (F c Hc) as (F1 & F2 & F3 & F4). auto.
  - repeat split; try reflexivity. discriminate.
  - destruct (upper_key_fixed party0) as [Hs Hl]. cbv zeta in Hs, Hl.
    split; [|split; [exact Hs|]].
    + destruct (lower (strip party0)); [congruence | discriminate].
    + intros _. split; [|apply upper_idem].
      unfold normalize_party. rewrite or_else_empty, Hs, Hl, E.
      destruct (lower (strip party0)); [congruence | reflexivity].
Qed.

Lemma normalize_party_idempotent_witness :
  is_ascii " Constitution " = true
  /\ normalize_party (normalize_party " Constitution ")
     = normalize_party " Constitution ".
Proof.
  split; [reflexivity|].
  destruct (normalize_party_idempotent " Constitution ") as (_ & _ & H).
  exact (proj1 (H eq_refl)).
Defined.

(** The name left by [remove_running_mate] is some slash-free text,
    trimmed. *)
Lemma remove_running_mate_shape name :
  exists a, remove_running_mate name = strip a /\ contains "/" a = false.
Proof.
  destruct (remove_running_mate_cases name) as (H0 & H1 & H2 & H3).
  cbv zeta in *.
  destruct (contains "/" (strip name)) eqn:Es.
  - destruct (H1 eq_refl) as (a & b & _ & Ha & ->). eauto.
  - destruct (contains " and " (strip name)) eqn:Ea.
    + destruct (String.eqb_spec (strip name) "") as [E | E].
      * exists "". rewrite (H0 E). split; reflexivity.
      * destruct (H2 E eq_refl eq_refl) as (a & b & Hc & ->).
        rewrite Hc in Es. apply not_contains_app_l in Es. eauto.
    + exists (strip name). rewrite (H3 eq_refl eq_refl), strip_idem.
      split; [reflexivity | exact Es].
Qed.

Lemma remove_running_mate_slash_free name :
  contains "/" (remove_running_mate name) = false.
Proof.
  destruct (remove_running_mate_shape name) as (a & -> & Ha).
  apply not_contains_strip, Ha.
Qed.

(** X4: the name left by [remove_running_mate] never contains a slash and
    has no outer white space. *)
Theorem remove_running_mate_no_slash :
  forall name : string,
    contains "/" (remove_running_mate name) = false
    /\ strip (remove_running_mate name) = remove_running_mate name.
Proof.
  intros name.
  destruct (remove_running_mate_shape name) as (a & -> & Ha).
  split.
  - destruct (contains "/" (strip a)) eqn:E; [|reflexivity].
    apply contains_strip in E. congruence.
  - apply strip_idem.
Qed.

(** ** More on the normal form of a name *)

Lemma split_ws_map_chars f s :
  (forall c, isspace (f c) = isspace c) ->
  split_ws (map_chars f s) = map (map_chars f) (split_ws s).
Proof.
  intros Hf. induction s as [|c r IH]; [reflexivity|].
  cbn [map_chars]. rewrite !split_ws_cons, Hf.
  destruct (isspace c); [exact IH|].
  destruct r as [|d r]; [reflexivity|].
  cbn [map_chars] in *. rewrite Hf.
  destruct (isspace d).
  - rewrite IH. reflexivity.
  - rewrite IH. destruct (split_ws (String d r)); reflexivity.
Qed.

Lemma join_map_chars f ws :
  f " "%char = " "%char ->
  map_chars f (join " " ws) = join " " (map (map_chars f) ws).
Proof.
  intros Hf. unfold join. induction ws as [|w ws IH]; [reflexivity|].
  destruct ws as [|w' ws]; [reflexivity|].
  change (String.concat " " (w :: w' :: ws))
    with (w ++ " " ++ String.concat " " (w' :: ws)).
  change (String.concat " " (map (map_chars f) (w :: w' :: ws)))
    with (map_chars f w ++ " " ++ String.concat " " (map (map_chars f) (w' :: ws))).
  rewrite <- IH, !map_chars_app. cbn [map_chars]. rewrite Hf. reflexivity.
Qed.

Lemma join_split_map_chars f s :
  (forall c, isspace (f c) = isspace c) -> f " "%char = " "%char ->
  join " " (split_ws (map_chars f s)) = map_chars f (join " " (split_ws s)).
Proof.
  intros H1 H2. rewrite (split_ws_map_chars _ _ H1), (join_map_chars _ _ H2).
  reflexivity.
Qed.

(** Splitting the joined words gives the words back. *)
Lemma split_join_split s : split_ws (join " " (split_ws s)) = split_ws s.
Proof.
  induction s as [|c r IH]; [reflexivity|].
  destruct (isspace c) eqn:Hc.
  - rewrite join_split_space, (split_ws_cons c r), Hc by exact Hc. exact IH.
  - rewrite join_split_cons by exact Hc.
    destruct r as [|d r]; [reflexivity|].
    rewrite (split_ws_cons c (String d r)), Hc.
    destruct (isspace d) eqn:Hd.
    + destruct (split_ws (String d r)) as [|w ws].
      * rewrite split_ws_cons, Hc. reflexivity.
      * change (" " ++ join " " (w :: ws)) with (String " " (join " " (w :: ws))).
        rewrite split_ws_cons, Hc.
        change (isspace " ") with true. cbv beta iota.
        rewrite split_ws_cons.
        change (isspace " ") with true. cbv beta iota.
        rewrite IH. reflexivity.
    + pose proof (join_split_cons d r Hd) as J.
      remember (join " " (split_ws (String d r))) as j eqn:Ej.
      destruct j as [|x t]; [discriminate|].
      injection J as -> _.
      rewrite split_ws_cons, Hc, Hd, IH. reflexivity.
Qed.

Lemma fold_case c :
  lower_char (unquote (lower_char (unquote c))) = lower_char (unquote c)
  /\ lower_char (unquote (upper_char c)) = lower_char (unquote c).
Proof. destruct c as [[] [] [] [] [] [] [] []]; split; reflexivity. Qed.

Lemma norm_chars s :
  _norm s = join " " (split_ws (map_chars (fun c => lower_char (unquote c)) s)).
Proof.
  rewrite norm_eq. unfold lower, replace_char. rewrite map_chars_compose.
  reflexivity.
Qed.

(** X5: the normal form of a name is a fixed point of [_norm] and does not
    depend on the outer white space of the name; for a name of the ASCII
    range it does not depend on the letter case either. *)
Theorem norm_idempotent :
  forall s : string,
    _norm (_norm s) = _norm s
    /\ _norm (strip s) = _norm s
    /\ (is_ascii s = true -> _norm (upper s) = _norm s).
Proof.
  intros s. repeat split.
  - rewrite (norm_chars (_norm s)), (norm_chars s).
    set (g := fun c => lower_char (unquote c)).
    set (u := map_chars g s).
    rewrite <- (join_split_map_chars g u);
      [| intros c; destruct c as [[] [] [] [] [] [] [] []]; reflexivity
       | reflexivity].
    rewrite split_join_split. unfold u. rewrite map_chars_compose.
    f_equal. f_equal. apply map_chars_ext. intros c. apply fold_case.
  - rewrite !norm_eq, unquote_strip, lower_strip, split_ws_strip. reflexivity.
  - intros _. rewrite !norm_chars. unfold upper. rewrite map_chars_compose.
    f_equal. f_equal. apply map_chars_ext. intros c. apply fold_case.
Qed.

Lemma norm_idempotent_witness :
  is_ascii "Prince George's" = true
  /\ _norm (upper "Prince George's") = _norm "Prince George's".
Proof.
  split; [reflexivity|].
  destruct (norm_idempotent "Prince George's") as (_ & _ & H).
  exact (H eq_refl).
Defined.

(** ** More on the lookup table and the resolver *)

Lemma lookup_groups_nonempty records :
  dict_all (fun group : list string => group <> [])
           (load_namelsad20_lookup records).
Proof.
  unfold load_namelsad20_lookup.
  apply (fold_left_invariant
           (fun d : dict (list string) => dict_all (fun g => g <> []) d));
    [|constructor].
  intros d r H. destruct (negb _); [exact H|].
  apply upd_all; [exact H | intros v _; destruct v; discriminate | discriminate].
Qed.

(** X6: the lookup files every record of state "24", and no other, under
    the normal form of its short name; a group lists its full names in the
    order of the reference, the keys are pairwise distinct, and a key is
    present exactly when some record of the state has it. *)
Theorem load_namelsad20_lookup_groups :
  forall (records : list ShapeRecord) (k : string),
    get_or (load_namelsad20_lookup records) k [] =
      map NAMELSAD20
          (filter (fun r => (String.eqb (STATEFP20 r) "24"
                             && String.eqb (_norm (NAME20 r)) k)%bool) records)
    /\ NoDup (keys (load_namelsad20_lookup records))
    /\ (mem k (load_namelsad20_lookup records) = true <->
        exists r, In r records /\ STATEFP20 r = "24" /\ _norm (NAME20 r) = k).
Proof.
  intros records k.
  pose proof (lookup_group records k) as G.
  split; [exact G|]. split; [apply lookup_distinct_keys|].
  unfold mem. split.
  - intros H.
    destruct (get (load_namelsad20_lookup records) k) as [group|] eqn:E;
      [|discriminate].
    pose proof (dict_all_get _ _ _ _ (lookup_groups_nonempty records) E) as Hne.
    unfold get_or in G. rewrite E in G.
    destruct group as [|x group]; [congruence|].
    assert (Hx : In x (map NAMELSAD20 (filter (in_group k) records)))
      by (rewrite <- G; left; reflexivity).
    apply in_map_iff in Hx. destruct Hx as (r & _ & Hf).
    apply filter_In in Hf. destruct Hf as [Hr Hg].
    unfold in_group, in_state in Hg. apply andb_true_iff in Hg.
    destruct Hg as [Hs Hk]. apply String.eqb_eq in Hs, Hk. eauto.
  - intros (r & Hr & Hs & Hk).
    assert (Hin : In (NAMELSAD20 r) (get_or (load_namelsad20_lookup records) k [])).
    { rewrite G. apply in_map, filter_In. split; [exact Hr|].
      unfold in_group, in_state. rewrite Hs, Hk, !String.eqb_refl. reflexivity. }
    unfold get_or in Hin.
    destruct (get (load_namelsad20_lookup records) k); [reflexivity | destruct Hin].
Qed.

Lemma first_with_in sub xs y : first_with sub xs = Some y -> In y xs.
Proof.
  unfold first_with.
  destruct (find (fun x => contains sub (lower x)) xs) as [x|] eqn:E;
    [|discriminate].
  destruct (truthy x); [|discriminate]. intros [= <-].
  apply find_some in E. tauto.
Qed.

(** X7: whatever the county string and the lookup, the resolver returns an
    entry of the lookup or a name that ends, in some letter case, with
    " county" or " city"; it never returns a bare unknown name. *)
Theorem to_namelsad20_value_or_suffixed :
  forall (county : string) (by_name : dict (list string)),
    let r := to_namelsad20 county by_name in
    (exists base, In r (get_or by_name base []))
    \/ endswith (lower r) " county" = true
    \/ endswith (lower r) " city" = true.
Proof.
  intros county0 by_name. cbv zeta. unfold to_namelsad20.
  set (raw := replace_char "`" "'" (strip county0)).
  set (nraw := _norm raw).
  set (base := if endswith nraw " county" then strip (drop_last 7 nraw)
               else if endswith nraw " city" then strip (drop_last 5 nraw)
               else nraw).
  destruct (if String.eqb nraw "baltimore city"
            then first_with " city" (get_or by_name "baltimore" [])
            else None) as [city_name|] eqn:Es.
  - left. exists "baltimore".
    destruct (String.eqb nraw "baltimore city"); [|discriminate].
    apply (first_with_in _ _ _ Es).
  - destruct (get_or by_name base []) as [|a [|b rest]] eqn:Ec.
    + right.
      destruct (endswith (lower raw) " county") eqn:E1; [auto|].
      destruct (endswith (lower raw) " city") eqn:E2; [auto|].
      cbn [orb]. left. rewrite lower_app. apply endswith_app.
    + left. exists base. rewrite Ec. left. reflexivity.
    + left. exists base. rewrite Ec.
      destruct (if contains "city" nraw then first_with " city" (a :: b :: rest)
                else None) as [city_name|] eqn:E1.
      * destruct (contains "city" nraw); [|discriminate].
        apply (first_with_in _ _ _ E1).
      * destruct (first_with " county" (a :: b :: rest)) as [cn|] eqn:E2.
        -- apply (first_with_in _ _ _ E2).
        -- left. reflexivity.
Qed.

(** X8: when the group of a short name has a single entry, the resolver
    returns that entry for the short name followed by " County" or by
    " city", and for the short name alone unless its normal form itself
    ends in " county" or " city". *)
Theorem to_namelsad20_single_match :
  forall (by_name : dict (list string)) (n x : string),
    blank n = false ->
    get_or by_name (_norm n) [] = [x] ->
    to_namelsad20 (n ++ " County") by_name = x
    /\ to_namelsad20 (n ++ " city") by_name = x
    /\ (endswith (_norm n) " county" = false ->
        endswith (_norm n) " city" = false ->
        to_namelsad20 n by_name = x).
Proof.
  intros by_name n x Hn Hg.
  assert (Hfw : forall sub,
             match first_with sub [x] with Some y => y | None => x end = x).
  { intros sub. unfold first_with. simpl.
    destruct (contains sub (lower x)); [|reflexivity].
    destruct (truthy x); reflexivity. }
  split; [|split].
  - unfold to_namelsad20. cbv zeta. rewrite norm_raw, (norm_app_county _ Hn).
    set (k := _norm n) in *.
    assert (Hsp : String.eqb (k ++ " county") "baltimore city" = false).
    { apply String.eqb_neq. intros E.
      pose proof (endswith_app k " county") as S. rewrite E in S. discriminate. }
    rewrite Hsp, endswith_app.
    change 7%nat with (String.length " county").
    rewrite drop_last_app, (strip_norm n : strip k = k), Hg. reflexivity.
  - unfold to_namelsad20. cbv zeta. rewrite norm_raw, (norm_app_city _ Hn).
    set (k := _norm n) in *.
    assert (Hgen :
              (let base :=
                 if endswith (k ++ " city") " county"
                 then strip (drop_last 7 (k ++ " city"))
                 else if endswith (k ++ " city") " city"
                      then strip (drop_last 5 (k ++ " city"))
                      else k ++ " city" in
               get_or by_name base []) = [x]).
    { cbv zeta. rewrite endswith_city_county, endswith_app.
      change 5%nat with (String.length " city").
      rewrite drop_last_app, (strip_norm n : strip k = k). exact Hg. }
    cbv zeta in Hgen. rewrite Hgen.
    destruct (String.eqb_spec (k ++ " city") "baltimore city") as [E | _];
      [|reflexivity].
    change "baltimore city" with ("baltimore" ++ " city") in E.
    apply app_inv_tail_s in E. rewrite <- E, Hg.
    pose proof (Hfw " city") as F.
    destruct (first_with " city" [x]); [exact F | reflexivity].
  - intros H1 H2. unfold to_namelsad20. cbv zeta. rewrite norm_raw.
    set (k := _norm n) in *. rewrite H1, H2, Hg.
    destruct (String.eqb_spec k "baltimore city") as [E | _]; [|reflexivity].
    rewrite E in H2. discriminate.
Qed.

(** X9: a county that the lookup knows resolves by its normal form alone:
    two raw strings with one normal form, whose key has a group, resolve
    to the same name. *)
Theorem to_namelsad20_by_normal_form :
  forall (a b : string) (by_name : dict (list string)),
    _norm a = _norm b ->
    get_or by_name (base_key a) [] <> [] ->
    to_namelsad20 a by_name = to_namelsad20 b by_name.
Proof.
  intros a b by_name Hn Hg.
  unfold base_key in Hg. cbv zeta in Hg. rewrite norm_raw in Hg.
  unfold to_namelsad20. cbv zeta. rewrite !norm_raw, <- Hn.
  destruct (if String.eqb (_norm a) "baltimore city"
            then first_with " city" (get_or by_name "baltimore" [])
            else None); [reflexivity|].
  destruct (get_or by_name _ []) as [|x [|y rest]]; [congruence | |];
    reflexivity.
Qed.

Lemma to_namelsad20_single_match_witness :
  to_namelsad20 "Kent County" (load_namelsad20_lookup md_records) = "Kent County"
  /\ to_namelsad20 "Kent city" (load_namelsad20_lookup md_records) = "Kent County"
  /\ to_namelsad20 "Kent" (load_namelsad20_lookup md_records) = "Kent County".
Proof.
  destruct (to_namelsad20_single_match (load_namelsad20_lookup md_records)
              "Kent" "Kent County" eq_refl eq_refl) as (H1 & H2 & H3).
  split; [exact H1|]. split; [exact H2|]. apply H3; reflexivity.
Defined.

Lemma to_namelsad20_by_normal_form_witness :
  to_namelsad20 " ST. MARY`S   county" (load_namelsad20_lookup md_records)
  = to_namelsad20 "St. Mary's County" (load_namelsad20_lookup md_records).
Proof.
  apply to_namelsad20_by_normal_form; [reflexivity | vm_compute; discriminate].
Defined.

(** ** More on the competitiveness scale *)

(** X10: every rating that [competitiveness] returns is an entry of the
    legend of the document: the legend lists, under the party of the
    rating, a band with its category and its color. *)
Theorem competitiveness_in_legend :
  forall (margin_pct : Q) (w : string),
    let r := competitiveness margin_pct w in
    exists entries e,
      get competitiveness_scale (party r) = Some entries
      /\ In e entries
      /\ l_category e = category r
      /\ l_color e = color r.
Proof.
  intros m w. cbv zeta.
  run_competitiveness m w
    ltac:(do 2 eexists; split; [reflexivity|];
          cbn [In];
          first [ split; [left; reflexivity | split; reflexivity]
                | split; [right; left; reflexivity | split; reflexivity]
                | split; [right; right; left; reflexivity | split; reflexivity]
                | split; [right; right; right; left; reflexivity
                         | split; reflexivity]
                | split; [right; right; right; right; left; reflexivity
                         | split; reflexivity]
                | split; [right; right; right; right; right; left; reflexivity
                         | split; reflexivity]
                | split; [right; right; right; right; right; right; left;
                          reflexivity
                         | split; reflexivity] ]).
Qed.

(** ** The leading candidate *)

(** X11: [most_common1] returns an entry with the largest count, the first
    one in the order of the dictionary when several share it; it returns
    nothing only for the empty dictionary. *)
Theorem most_common1_first_maximum :
  forall (d : dict Z),
    match most_common1 d with
    | None => d = []
    | Some (k, v) =>
        exists before after,
          d = (before ++ (k, v) :: after)%list
          /\ (forall k' v', In (k', v') before -> (v' < v)%Z)
          /\ (forall k' v', In (k', v') after -> (v' <= v)%Z)
    end.
Proof.
  induction d as [|[k v] r IH]; [reflexivity|].
  cbn [most_common1].
  destruct (most_common1 r) as [[k' v']|].
  - destruct IH as (before & after & -> & Hb & Ha).
    destruct (Z.ltb_spec v v') as [Hlt | Hge].
    + exists ((k, v) :: before), after. split; [reflexivity|]. split.
      * intros k0 v0 [[= <- <-] | H]; [exact Hlt | eauto].
      * exact Ha.
    + exists [], (before ++ (k', v') :: after)%list.
      split; [reflexivity|]. split; [intros ? ? []|].
      intros k0 v0 H. apply in_app_or in H. destruct H as [H | [H | H]].
      * apply Hb in H. lia.
      * injection H as <- <-. lia.
      * apply Ha in H. lia.
  - subst r. exists [], []. split; [reflexivity|].
    split; intros ? ? [].
Qed.

(** ** The sign of a vote field *)

Lemma skip_leading_suffix p s : exists t, s = t ++ skip_leading p s.
Proof.
  induction s as [|c r [t IH]]; [exists ""; reflexivity|].
  simpl. destruct (p c).
  - exists (String c t). simpl. congruence.
  - exists "". reflexivity.
Qed.

Lemma skip_trailing_prefix p s : exists t, s = skip_trailing p s ++ t.
Proof.
  induction s as [|c r [t IH]]; [exists ""; reflexivity|].
  cbn [skip_trailing]. destruct (skip_trailing p r) as [|d u].
  - destruct (p c).
    + exists (String c r). reflexivity.
    + exists t. simpl in *. congruence.
  - exists t. simpl in *. congruence.
Qed.

Lemma digit_val_nonneg c d : digit_val c = Some d -> (0 <= d)%Z.
Proof.
  unfold digit_val, in_range.
  destruct (N.leb_spec 48 (N_of_ascii c)); cbn [andb]; [|discriminate].
  destruct (N.leb (N_of_ascii c) 57); [|discriminate].
  intros [= <-]. lia.
Qed.

Lemma parse_digits_nonneg s acc u v :
  (0 <= acc)%Z -> parse_digits acc u s = Some v -> (0 <= v)%Z.
Proof.
  revert acc u. induction s as [|c r IH]; intros acc u Hacc; cbn [parse_digits].
  - destruct u; [discriminate|]. intros [= <-]. exact Hacc.
  - destruct (Ascii.eqb c "_").
    + destruct u; [discriminate | apply IH, Hacc].
    + destruct (digit_val c) as [d|] eqn:E; [|discriminate].
      apply IH. pose proof (digit_val_nonneg _ _ E). lia.
Qed.

Lemma parse_unsigned_nonneg s v : parse_unsigned s = Some v -> (0 <= v)%Z.
Proof.
  destruct s as [|c r]; [discriminate|]. cbn [parse_unsigned].
  destruct (digit_val c) as [d|] eqn:E; [|discriminate].
  apply parse_digits_nonneg, (digit_val_nonneg _ _ E).
Qed.

(** X12: [int] yields a negative number only for a text with a minus sign;
    so a row subtracts from its bucket only when its vote field has one. *)
Theorem negative_votes_need_a_minus_sign :
  (forall (s : string) (v : Z),
      int s = Some v -> (v < 0)%Z -> contains "-" s = true)
  /\ (forall row : Row,
        (row_votes row < 0)%Z ->
        contains "-" (field_or (votes row) "0") = true).
Proof.
  assert (Hint : forall s v,
             int s = Some v -> (v < 0)%Z -> contains "-" s = true).
  { intros s v E Hv. unfold int in E.
    destruct (skip_trailing_prefix c_isspace s) as [t2 H2].
    destruct (skip_leading_suffix c_isspace (skip_trailing c_isspace s))
      as [t1 H1].
    rewrite H2. apply contains_app_l. rewrite H1. apply contains_app_r.
    destruct (skip_leading c_isspace (skip_trailing c_isspace s))
      as [|c r] eqn:Es.
    - discriminate.
    - destruct (Ascii.eqb_spec c "-") as [-> | Hc]; [reflexivity|].
      exfalso.
      assert (Hp : exists s', parse_unsigned s' = Some v).
      { destruct (Ascii.eqb_spec c "+") as [-> | Hc'].
        - eauto.
        - exists (String c r).
          destruct c as [[] [] [] [] [] [] [] []]; try exact E;
            congruence. }
      destruct Hp as [s' Hp]. apply parse_unsigned_nonneg in Hp. lia. }
  split; [exact Hint|].
  intros row H. unfold row_votes in H.
  destruct (int (strip (field_or (votes row) "0"))) as [v|] eqn:E; [|lia].
  apply contains_strip, (Hint _ _ E H).
Qed.

Lemma negative_votes_need_a_minus_sign_witness :
  contains "-" " -5 " = true.
Proof.
  apply (proj1 negative_votes_need_a_minus_sign " -5 " (-5)%Z);
    [reflexivity | reflexivity].
Defined.

(** ** The tally as a sum over the counted rows *)

Lemma fold_add_row lk year rows acc :
  tally (fold_left (add_row lk year) rows acc)
  = fold_left add_entry (flat_map (row_entries lk year) rows) (tally acc).
Proof.
  revert acc. induction rows as [|row rows IH]; intros acc; [reflexivity|].
  cbn [fold_left flat_map]. rewrite IH, fold_left_app. f_equal.
  unfold add_row, row_entries.
  change (normalize_contest_name (strip (field_or (office row) "")))
    with (row_contest row).
  destruct (mem (row_contest row) CONTEST_FILTER); reflexivity.
Qed.

Lemma fold_add_file lk files acc :
  tally (fold_left (add_file lk) files acc)
  = fold_left add_entry (counted lk files) (tally acc).
Proof.
  revert acc. induction files as [|f files IH]; intros acc; [reflexivity|].
  unfold counted in *. cbn [fold_left flat_map].
  rewrite IH, fold_left_app. f_equal.
  unfold add_file, file_entries.
  destruct (int (take 4 (file_name f))); [|reflexivity].
  rewrite fold_add_row. reflexivity.
Qed.

(** The tally is the counted rows added one by one to the empty tally. *)
Lemma tally_of_counted lk files :
  tally (accumulate lk files) = fold_left add_entry (counted lk files) [].
Proof. apply (fold_add_file lk files). Qed.

Section UpdFacts.
Context {V : Type}.

Lemma get_upd k k' (dflt : V) f d :
  get (upd k dflt f d) k' =
  if String.eqb k k' then Some (f (get_or d k dflt)) else get d k'.
Proof.
  destruct (String.eqb_spec k k') as [<- | Hne].
  - apply get_upd_same.
  - apply get_upd_other. congruence.
Qed.

Lemma get_or_upd k k' (dflt : V) f d :
  get_or (upd k dflt f d) k' dflt =
  if String.eqb k k' then f (get_or d k dflt) else get_or d k' dflt.
Proof.
  unfold get_or at 1. rewrite get_upd.
  destruct (String.eqb k k'); reflexivity.
Qed.

Lemma mem_upd k k' (dflt : V) f d :
  mem k' (upd k dflt f d) = (String.eqb k k' || mem k' d)%bool.
Proof.
  unfold mem. rewrite get_upd. destruct (String.eqb k k'); reflexivity.
Qed.

End UpdFacts.

Lemma count_of_candidates t y c co p cand :
  count_of t y c co p cand = get (candidates_at t y c co p) cand.
Proof.
  unfold count_of, candidates_at, parties_at, counties_at, get_or.
  destruct (get t y) as [d1|]; [|reflexivity].
  destruct (get d1 c) as [d2|]; [|reflexivity].
  destruct (get d2 co) as [d3|]; [|reflexivity].
  destruct (get d3 p); reflexivity.
Qed.

(** The effect of one counted row on the three levels below the year. *)
Lemma counties_at_add t e y c :
  counties_at (add_entry t e) y c =
  if (String.eqb (e_year e) y && String.eqb (e_contest e) c)%bool
  then upd (e_county e) [] (upd (e_party e) []
         (upd (e_candidate e) 0%Z (fun n => (n + e_votes e)%Z)))
         (counties_at t (e_year e) (e_contest e))
  else counties_at t y c.
Proof.
  unfold counties_at, add_entry. rewrite get_or_upd.
  destruct (String.eqb_spec (e_year e) y) as [<- | Hy]; [|reflexivity].
  rewrite get_or_upd. cbn [andb].
  destruct (String.eqb (e_contest e) c); reflexivity.
Qed.

Lemma parties_at_add t e y c co :
  parties_at (add_entry t e) y c co =
  if in_county y c co e
  then upd (e_party e) [] (upd (e_candidate e) 0%Z (fun n => (n + e_votes e)%Z))
         (parties_at t (e_year e) (e_contest e) (e_county e))
  else parties_at t y c co.
Proof.
  unfold parties_at, in_county. rewrite counties_at_add.
  destruct (String.eqb_spec (e_year e) y) as [<- | Hy]; [|reflexivity].
  destruct (String.eqb_spec (e_contest e) c) as [<- | Hc]; [|reflexivity].
  cbn [andb]. rewrite get_or_upd.
  destruct (String.eqb (e_county e) co); reflexivity.
Qed.

Lemma candidates_at_add t e y c co p :
  candidates_at (add_entry t e) y c co p =
  if in_party y c co p e
  then upd (e_candidate e) 0%Z (fun n => (n + e_votes e)%Z)
         (candidates_at t (e_year e) (e_contest e) (e_county e) (e_party e))
  else candidates_at t y c co p.
Proof.
  unfold candidates_at, in_party. rewrite parties_at_add.
  destruct (in_county y c co e) eqn:E; [|reflexivity].
  unfold in_county in E.
  apply andb_true_iff in E. destruct E as [E E3].
  apply andb_true_iff in E. destruct E as [E1 E2].
  apply String.eqb_eq in E1, E2, E3. subst y c co.
  cbn [andb]. rewrite get_or_upd.
  destruct (String.eqb (e_party e) p); reflexivity.
Qed.

Lemma in_party_inv y c co p e :
  in_party y c co p e = true ->
  e_year e = y /\ e_contest e = c /\ e_county e = co /\ e_party e = p.
Proof.
  unfold in_party, in_county. intros E.
  apply andb_true_iff in E. destruct E as [E E4].
  apply andb_true_iff in E. destruct E as [E E3].
  apply andb_true_iff in E. destruct E as [E1 E2].
  apply String.eqb_eq in E1, E2, E3, E4. auto.
Qed.

Lemma count_of_add t e y c co p cand :
  count_of (add_entry t e) y c co p cand =
  if in_bucket y c co p cand e
  then Some (count_or_zero t y c co p cand + e_votes e)%Z
  else count_of t y c co p cand.
Proof.
  unfold count_or_zero, in_bucket. rewrite !count_of_candidates.
  rewrite candidates_at_add.
  destruct (in_party y c co p e) eqn:E; [|reflexivity].
  destruct (in_party_inv _ _ _ _ _ E) as (<- & <- & <- & <-).
  cbn [andb]. rewrite get_upd.
  destruct (String.eqb_spec (e_candidate e) cand) as [<- | Hne]; reflexivity.
Qed.

Lemma sum_cons x xs : sum (x :: xs) = (x + sum xs)%Z.
Proof. unfold sum. simpl. rewrite sum_from. unfold sum. lia. Qed.

Lemma votes_of_cons e es : votes_of (e :: es) = (e_votes e + votes_of es)%Z.
Proof. unfold votes_of. simpl. apply sum_cons. Qed.

Lemma count_of_fold es : forall t y c co p cand,
  let t' := fold_left add_entry es t in
  count_or_zero t' y c co p cand
  = (count_or_zero t y c co p cand
     + votes_of (filter (in_bucket y c co p cand) es))%Z
  /\ (count_of t' y c co p cand = None <->
      count_of t y c co p cand = None
      /\ filter (in_bucket y c co p cand) es = []).
Proof.
  induction es as [|e es IH]; intros t y c co p cand; cbv zeta.
  - cbn [fold_left filter]. change (votes_of []) with 0%Z.
    rewrite Z.add_0_r. split; [reflexivity | tauto].
  - cbn [fold_left filter].
    destruct (IH (add_entry t e) y c co p cand) as [IH1 IH2].
    cbv zeta in IH1, IH2. rewrite IH1, IH2.
    assert (Hz : count_or_zero (add_entry t e) y c co p cand =
                 if in_bucket y c co p cand e
                 then (count_or_zero t y c co p cand + e_votes e)%Z
                 else count_or_zero t y c co p cand).
    { unfold count_or_zero at 1. rewrite count_of_add.
      destruct (in_bucket y c co p cand e); reflexivity. }
    rewrite Hz, count_of_add.
    destruct (in_bucket y c co p cand e).
    + rewrite votes_of_cons. split; [lia|].
      split; [intros [H _]; discriminate | intros [_ H]; discriminate].
    + split; [reflexivity | tauto].
Qed.

(** X13: the count stored in a bucket is the sum of the votes of the
    counted rows of that bucket, and the bucket exists exactly when there is
    such a row.  Rows of files whose name does not start with a year, and
    rows outside the contest filter, are not counted. *)
Theorem tally_is_sum_of_counted_rows :
  forall (lk : dict (list string)) (files : list CsvFile)
         (y c co p cand : string),
    let t := tally (accumulate lk files) in
    let hits := filter (in_bucket y c co p cand) (counted lk files) in
    count_or_zero t y c co p cand = votes_of hits
    /\ (count_of t y c co p cand = None <-> hits = []).
Proof.
  intros lk files y c co p cand. cbv zeta. rewrite tally_of_counted.
  destruct (count_of_fold (counted lk files) [] y c co p cand) as [H1 H2].
  cbv zeta in H1, H2. rewrite H1, H2.
  unfold count_or_zero, count_of. simpl. split; [reflexivity | tauto].
Qed.

(** ** The emitted totals as sums over the counted rows *)

Lemma sum_values_upd k v (d : dict Z) :
  sum (values (upd k 0%Z (fun n => (n + v)%Z) d)) = (sum (values d) + v)%Z.
Proof.
  unfold values. induction d as [|[k' x] r IH]; cbn [upd map snd].
  - rewrite sum_cons. unfold sum. simpl. lia.
  - destruct (String.eqb k' k); cbn [map snd]; rewrite !sum_cons.
    + lia.
    + rewrite IH. lia.
Qed.

Lemma get_totals (bp : PartyTally) p :
  get_or (map (fun pc : string * CandTally => (fst pc, sum (values (snd pc)))) bp)
         p 0%Z
  = sum (values (get_or bp p [])).
Proof.
  unfold get_or. induction bp as [|[k x] r IH]; [reflexivity|].
  cbn [map get fst snd]. destruct (String.eqb k p); [reflexivity | exact IH].
Qed.

Lemma sum_totals_upd p cand v (bp : PartyTally) :
  sum (values (map (fun pc : string * CandTally => (fst pc, sum (values (snd pc))))
                   (upd p [] (upd cand 0%Z (fun n => (n + v)%Z)) bp)))
  = (sum (values (map (fun pc : string * CandTally =>
                         (fst pc, sum (values (snd pc)))) bp)) + v)%Z.
Proof.
  unfold values at 1 3.
  induction bp as [|[k x] r IH]; cbn [upd map fst snd].
  - rewrite sum_cons. unfold sum. simpl. lia.
  - destruct (String.eqb k p); cbn [map fst snd]; rewrite !sum_cons.
    + rewrite sum_values_upd. lia.
    + rewrite IH. lia.
Qed.

Lemma party_total_fold es : forall t y c co p,
  sum (values (candidates_at (fold_left add_entry es t) y c co p))
  = (sum (values (candidates_at t y c co p))
     + votes_of (filter (in_party y c co p) es))%Z.
Proof.
  induction es as [|e es IH]; intros t y c co p; cbn [fold_left filter].
  - change (votes_of []) with 0%Z. lia.
  - rewrite IH, candidates_at_add.
    destruct (in_party y c co p e) eqn:E.
    + destruct (in_party_inv _ _ _ _ _ E) as (<- & <- & <- & <-).
      rewrite sum_values_upd, votes_of_cons. lia.
    + reflexivity.
Qed.

Lemma county_total_fold es : forall t y c co,
  sum (values (map (fun pc : string * CandTally => (fst pc, sum (values (snd pc))))
                   (parties_at (fold_left add_entry es t) y c co)))
  = (sum (values (map (fun pc : string * CandTally =>
                         (fst pc, sum (values (snd pc))))
                      (parties_at t y c co)))
     + votes_of (filter (in_county y c co) es))%Z.
Proof.
  induction es as [|e es IH]; intros t y c co; cbn [fold_left filter].
  - change (votes_of []) with 0%Z. lia.
  - rewrite IH, parties_at_add.
    destruct (in_county y c co e) eqn:E.
    + unfold in_county in E.
      apply andb_true_iff in E. destruct E as [E E3].
      apply andb_true_iff in E. destruct E as [E1 E2].
      apply String.eqb_eq in E1, E2, E3. subst y c co.
      rewrite sum_totals_upd, votes_of_cons. lia.
    + reflexivity.
Qed.

(** The votes of a county split into those of the two major parties and
    those of the others. *)
Lemma votes_of_split y c co es :
  votes_of (filter (in_county y c co) es)
  = (votes_of (filter (in_party y c co "DEM") es)
     + votes_of (filter (in_party y c co "REP") es)
     + votes_of (filter (fun e => (in_county y c co e
                                   && negb (String.eqb (e_party e) "DEM")
                                   && negb (String.eqb (e_party e) "REP"))%bool)
                        es))%Z.
Proof.
  induction es as [|e es IH]; [reflexivity|].
  cbn [filter]. unfold in_party.
  destruct (in_county y c co e); cbn [andb]; [|exact IH].
  destruct (String.eqb_spec (e_party e) "DEM") as [E | _].
  - rewrite E. cbn [String.eqb Ascii.eqb Bool.eqb negb andb].
    rewrite !votes_of_cons. fold (in_party y c co "DEM").
    fold (in_party y c co "REP"). unfold in_party in *. lia.
  - destruct (String.eqb (e_party e) "REP"); cbn [negb andb];
      rewrite !votes_of_cons; unfold in_party in *; lia.
Qed.

(** X14: in every emitted record, the votes of a party are the sum of the
    votes of the counted rows of that year, contest, county and party; the
    total is the sum over all the counted rows of the county, and the other
    votes are the sum over its rows of parties other than DEM and REP. *)
Theorem summary_totals_are_sums_of_counted_rows :
  forall (records : list ShapeRecord) (files : list CsvFile)
         (y c co : string) (s : Summary),
    summary_of (results_by_year (build records files)) y c co = Some s ->
    let es := counted (load_namelsad20_lookup records) files in
    dem_votes s = votes_of (filter (in_party y c co "DEM") es)
    /\ rep_votes s = votes_of (filter (in_party y c co "REP") es)
    /\ total_votes s = votes_of (filter (in_county y c co) es)
    /\ other_votes s =
       votes_of (filter (fun e => (in_county y c co e
                                   && negb (String.eqb (e_party e) "DEM")
                                   && negb (String.eqb (e_party e) "REP"))%bool)
                        es)
    /\ forall p, get_or (all_parties s) p 0%Z
                 = votes_of (filter (in_party y c co p) es).
Proof.
  intros records files y c co s E es.
  cbn [results_by_year build] in E. apply summary_of_results in E.
  set (lk := load_namelsad20_lookup records) in *.
  change (get_or (get_or (get_or (tally (accumulate lk files)) y []) c []) co [])
    with (parties_at (tally (accumulate lk files)) y c co) in E.
  rewrite tally_of_counted in E. fold es in E.
  assert (Hp : forall p,
             get_or (map (fun pc : string * dict Z =>
                            (fst pc, sum (values (snd pc))))
                         (parties_at (fold_left add_entry es []) y c co)) p 0%Z
             = votes_of (filter (in_party y c co p) es)).
  { intros p. rewrite get_totals.
    change (get_or (parties_at (fold_left add_entry es []) y c co) p [])
      with (candidates_at (fold_left add_entry es []) y c co p).
    rewrite party_total_fold. reflexivity. }
  assert (Ht : sum (values (map (fun pc : string * dict Z =>
                                   (fst pc, sum (values (snd pc))))
                                (parties_at (fold_left add_entry es []) y c co)))
               = votes_of (filter (in_county y c co) es)).
  { rewrite county_total_fold. reflexivity. }
  subst s. cbn [summarise dem_votes rep_votes total_votes other_votes all_parties].
  rewrite !Hp, Ht.
  repeat split; try reflexivity.
  - rewrite (votes_of_split y c co es). lia.
  - exact Hp.
Qed.

Lemma summary_totals_are_sums_of_counted_rows_witness :
  exists s,
    summary_of (results_by_year (build md_records sample_files))
               "2020" "President" "Kent County" = Some s
    /\ dem_votes s
       = votes_of (filter (in_party "2020" "President" "Kent County" "DEM")
                          (counted (load_namelsad20_lookup md_records) sample_files)).
Proof.
  eexists. split; [vm_compute; reflexivity|].
  apply (summary_totals_are_sums_of_counted_rows md_records sample_files
           "2020" "President" "Kent County").
  vm_compute. reflexivity.
Defined.

Example counted_rows_of_a_bucket :
  filter (in_bucket "2020" "President" "Kent County" "DEM" "Biden")
         (counted (load_namelsad20_lookup md_records) sample_files)
  = [ {| e_year := "2020"; e_contest := "President"; e_county := "Kent County";
         e_party := "DEM"; e_candidate := "Biden"; e_votes := 5329 |} ].
Proof. vm_compute. reflexivity. Qed.

(** ** The emitted records *)

(** X15: an emitted record carries the year, the contest and the county it
    is stored under; its two-party total, other votes and total add up; its
    margin is the absolute difference of the two major parties; and its
    winner is "DEM", "REP" or "TIE" according to which of them has more
    votes. *)
Theorem summary_is_consistent :
  forall (records : list ShapeRecord) (files : list CsvFile)
         (y c co : string) (s : Summary),
    summary_of (results_by_year (build records files)) y c co = Some s ->
    s_year s = y /\ s_contest s = c /\ s_county s = co
    /\ two_party_total s = (dem_votes s + rep_votes s)%Z
    /\ (dem_votes s + rep_votes s + other_votes s)%Z = total_votes s
    /\ total_votes s = sum (values (all_parties s))
    /\ margin s = Z.abs (dem_votes s - rep_votes s)
    /\ (winner s = "DEM" <-> (rep_votes s < dem_votes s)%Z)
    /\ (winner s = "REP" <-> (dem_votes s < rep_votes s)%Z)
    /\ (winner s = "TIE" <-> dem_votes s = rep_votes s).
Proof.
  intros records files y c co s E.
  cbn [results_by_year build] in E. apply summary_of_results in E. subst s.
  cbn [summarise s_year s_contest s_county two_party_total dem_votes rep_votes
       other_votes total_votes all_parties margin winner].
  set (D := get_or _ "DEM" 0%Z). set (R := get_or _ "REP" 0%Z).
  repeat split; try reflexivity; try lia;
    destruct (Z.ltb_spec R D); destruct (Z.ltb_spec D R);
    try discriminate; try reflexivity; try lia; intros; lia.
Qed.

Lemma summary_is_consistent_witness :
  exists s,
    summary_of (results_by_year (build md_records sample_files))
               "2020" "President" "Allegany County" = Some s
    /\ winner s = "REP" /\ (dem_votes s < rep_votes s)%Z.
Proof.
  eexists. split; [vm_compute; reflexivity|].
  split; [reflexivity|].
  apply (summary_is_consistent md_records sample_files
           "2020" "President" "Allegany County").
  - vm_compute. reflexivity.
  - reflexivity.
Defined.

Section FoldSet.
Context {V : Type} (g : string -> V).

Lemma get_set k v (d : dict V) : get (set k v d) k = Some v.
Proof. unfold set. rewrite get_upd_same. reflexivity. Qed.

Lemma get_set_other k k' v (d : dict V) :
  k' <> k -> get (set k v d) k' = get d k'.
Proof. intros H. unfold set. apply get_upd_other, H. Qed.

Lemma get_fold_set_out ks : forall (d : dict V) k,
  ~ In k ks ->
  get (fold_left (fun res k => set k (g k) res) ks d) k = get d k.
Proof.
  induction ks as [|k0 ks IH]; intros d k H; [reflexivity|].
  cbn [fold_left]. rewrite IH by (intros H'; apply H; right; exact H').
  apply get_set_other. intros ->. apply H. left. reflexivity.
Qed.

Lemma get_fold_set_in ks : forall (d : dict V) k,
  In k ks ->
  get (fold_left (fun res k => set k (g k) res) ks d) k = Some (g k).
Proof.
  induction ks as [|k0 ks IH]; intros d k H; [destruct H|].
  cbn [fold_left].
  destruct (in_dec string_dec k ks) as [Hin | Hout]; [apply IH, Hin|].
  destruct H as [-> | H]; [|contradiction].
  rewrite get_fold_set_out by exact Hout. apply get_set.
Qed.

(** One level of the emitting loops, read back by key. *)
Lemma get_fold_sorted {W : Type} (t : dict W) k :
  get (fold_left (fun res k => set k (g k) res) (sorted (keys t)) []) k
  = if mem k t then Some (g k) else None.
Proof.
  destruct (mem k t) eqn:E.
  - apply get_fold_set_in, sorted_in, mem_keys, E.
  - rewrite get_fold_set_out; [reflexivity|].
    intros H. apply sorted_in, mem_keys in H. congruence.
Qed.

End FoldSet.

Lemma mem_get_or {V : Type} (d : dict (dict V)) k k' :
  mem k' (get_or d k []) = true -> mem k d = true.
Proof.
  unfold mem, get_or. destruct (get d k); [reflexivity | discriminate].
Qed.

(** A record is emitted for a county of the tally, and for nothing else. *)
Lemma summary_of_tally t y c co :
  summary_of (results_of_tally t) y c co =
  if mem co (counties_at t y c)
  then Some (summarise y c co (parties_at t y c co))
  else None.
Proof.
  unfold summary_of, results_of_tally.
  rewrite (get_fold_sorted (fun year => results_of_year year (get_or t year []))).
  destruct (mem y t) eqn:Ey.
  - unfold results_of_year.
    rewrite (get_fold_sorted
               (fun contest => results_of_contest y contest
                                 (get_or (get_or t y []) contest []))).
    destruct (mem c (get_or t y [])) eqn:Ec.
    + unfold results_of_contest.
      rewrite (get_fold_sorted
                 (fun county => summarise y c county
                                  (get_or (get_or (get_or t y []) c []) county []))).
      reflexivity.
    + destruct (mem co (counties_at t y c)) eqn:E; [|reflexivity].
      apply mem_get_or in E. exfalso. exact (eq_true_false_abs _ E Ec).
  - destruct (mem co (counties_at t y c)) eqn:E; [|reflexivity].
    apply mem_get_or in E. apply mem_get_or in E.
    exfalso. exact (eq_true_false_abs _ E Ey).
Qed.

Lemma mem_county_fold es : forall t y c co,
  mem co (counties_at (fold_left add_entry es t) y c)
  = (mem co (counties_at t y c) || existsb (in_county y c co) es)%bool.
Proof.
  induction es as [|e es IH]; intros t y c co; cbn [fold_left existsb].
  - rewrite orb_false_r. reflexivity.
  - rewrite IH, counties_at_add. unfold in_county.
    destruct (String.eqb_spec (e_year e) y) as [<- | Hy];
      cbn [andb]; [|reflexivity].
    destruct (String.eqb_spec (e_contest e) c) as [<- | Hc];
      cbn [andb]; [|reflexivity].
    rewrite mem_upd.
    destruct (String.eqb (e_county e) co);
      destruct (mem co (counties_at t (e_year e) (e_contest e))); reflexivity.
Qed.

(** X16: a record is emitted for a year, a contest and a county exactly when
    some counted row falls in that county of that contest and year. *)
Theorem record_emitted_iff_counted :
  forall (records : list ShapeRecord) (files : list CsvFile) (y c co : string),
    summary_of (results_by_year (build records files)) y c co <> None <->
    exists e, In e (counted (load_namelsad20_lookup records) files)
              /\ e_year e = y /\ e_contest e = c /\ e_county e = co.
Proof.
  intros records files y c co. cbn [results_by_year build].
  rewrite summary_of_tally, tally_of_counted, mem_county_fold.
  change (mem co (counties_at [] y c)) with false. cbn [orb].
  set (es := counted (load_namelsad20_lookup records) files).
  split.
  - intros H. destruct (existsb (in_county y c co) es) eqn:E; [|congruence].
    apply existsb_exists in E. destruct E as (e & He & Hc).
    unfold in_county in Hc.
    apply andb_true_iff in Hc. destruct Hc as [Hc E3].
    apply andb_true_iff in Hc. destruct Hc as [E1 E2].
    apply String.eqb_eq in E1, E2, E3. eauto.
  - intros (e & He & <- & <- & <-).
    assert (E : existsb (in_county (e_year e) (e_contest e) (e_county e)) es = true).
    { apply existsb_exists. exists e. split; [exact He|].
      unfold in_county. rewrite !String.eqb_refl. reflexivity. }
    rewrite E. discriminate.
Qed.

Lemma take_length n s : (String.length (take n s) <= n)%nat.
Proof.
  revert s. induction n as [|n IH]; intros [|c s]; simpl; try lia.
  specialize (IH s). lia.
Qed.

Lemma counted_valid lk files e :
  In e (counted lk files) ->
  int (e_year e) <> None
  /\ (String.length (e_year e) <= 4)%nat
  /\ mem (e_contest e) CONTEST_FILTER = true.
Proof.
  unfold counted. intros H. apply in_flat_map in H.
  destruct H as (f & _ & H). unfold file_entries in H.
  destruct (int (take 4 (file_name f))) eqn:Ey; [|destruct H].
  apply in_flat_map in H. destruct H as (row & _ & H).
  unfold row_entries in H.
  destruct (mem (row_contest row) CONTEST_FILTER) eqn:Ec; [|destruct H].
  destruct H as [<- | []]. cbn [e_year e_contest].
  split; [congruence|]. split; [apply take_length | exact Ec].
Qed.

(** X17: every year key of the emitted document is a text of at most four
    characters that [int] accepts, every contest key is one of the contests
    of [CONTEST_FILTER], and the contest type and office rank of a record
    are those that [CONTEST_FILTER] gives for its contest. *)
Theorem emitted_keys_are_valid :
  forall (records : list ShapeRecord) (files : list CsvFile)
         (y c co : string) (s : Summary),
    summary_of (results_by_year (build records files)) y c co = Some s ->
    int y <> None
    /\ (String.length y <= 4)%nat
    /\ get CONTEST_FILTER c
       = Some {| contest_type := s_contest_type s;
                 office_rank := s_office_rank s |}
    /\ (1 <= s_office_rank s <= 5)%Z.
Proof.
  intros records files y c co s E.
  assert (Hex : exists e, In e (counted (load_namelsad20_lookup records) files)
                          /\ e_year e = y /\ e_contest e = c).
  { cbn [results_by_year build] in E.
    rewrite summary_of_tally, tally_of_counted, mem_county_fold in E.
    change (mem co (counties_at [] y c)) with false in E. cbn [orb] in E.
    destruct (existsb _ _) eqn:Ex; [|discriminate].
    apply existsb_exists in Ex. destruct Ex as (e & He & Hc).
    unfold in_county in Hc.
    apply andb_true_iff in Hc. destruct Hc as [Hc _].
    apply andb_true_iff in Hc. destruct Hc as [E1 E2].
    apply String.eqb_eq in E1, E2. eauto. }
  destruct Hex as (e & He & <- & <-).
  destruct (counted_valid _ _ _ He) as (Hy & Hl & Hc).
  split; [exact Hy|]. split; [exact Hl|].
  cbn [results_by_year build] in E. apply summary_of_results in E. subst s.
  cbn [summarise s_contest_type s_office_rank].
  unfold mem in Hc. unfold get_or.
  destruct (get CONTEST_FILTER (e_contest e)) as [[ty rk]|] eqn:G;
    [|discriminate].
  split; [reflexivity|]. cbn [office_rank].
  apply get_in in G. unfold CONTEST_FILTER in G. cbn [In] in G.
  repeat (destruct G as [G | G]; [injection G as _ _ <-; lia|]).
  destruct G.
Qed.

Lemma emitted_keys_are_valid_witness :
  int "2018" <> None
  /\ get CONTEST_FILTER "Comptroller"
     = Some {| contest_type := "State"; office_rank := 5 |}.
Proof.
  assert (E : exists s,
             summary_of (results_by_year (build md_records sample_files))
                        "2018" "Comptroller" "Baltimore County" = Some s
             /\ s_contest_type s = "State" /\ s_office_rank s = 5%Z)
    by (eexists; split; [vm_compute; reflexivity | split; reflexivity]).
  destruct E as (s & E & Ht & Hr).
  destruct (emitted_keys_are_valid md_records sample_files _ _ _ _ E)
    as (H1 & _ & H3 & _).
  rewrite Ht, Hr in H3. split; assumption.
Defined.

(** ** The summary counts *)

Lemma set_add_in x y s : In y (set_add x s) <-> y = x \/ In y s.
Proof.
  unfold set_add. destruct (existsb (String.eqb x) s) eqn:E.
  - split; [auto|]. intros [-> | H]; [|exact H].
    apply existsb_exists in E. destruct E as (z & Hz & Ez).
    apply String.eqb_eq in Ez. subst z. exact Hz.
  - rewrite in_app_iff. simpl. split; intros [H | H]; auto.
    + destruct H as [<- | []]. auto.
Qed.

Lemma set_add_nodup x s : NoDup s -> NoDup (set_add x s).
Proof.
  intros H. unfold set_add. destruct (existsb (String.eqb x) s) eqn:E; [exact H|].
  apply NoDup_app; [exact H | repeat constructor; simpl; tauto|].
  intros a Ha [Hx | []]. subst a.
  assert (T : existsb (String.eqb x) s = true).
  { apply existsb_exists. exists x. split; [exact Ha | apply String.eqb_refl]. }
  congruence.
Qed.

Lemma add_row_ok lk year acc row :
  In year (years_seen acc) -> acc_ok acc ->
  In year (years_seen (add_row lk year acc row))
  /\ acc_ok (add_row lk year acc row).
Proof.
  intros Hy (H1 & H2 & H3 & H4 & H5). unfold add_row.
  destruct (mem _ CONTEST_FILTER) eqn:E; cbn [negb];
    [|split; [exact Hy | repeat split; assumption]].
  split; [exact Hy|]. unfold acc_ok. cbn [tally years_seen contests_seen].
  repeat split; try assumption.
  - apply set_add_nodup, H2.
  - intros c Hc. apply set_add_in in Hc. destruct Hc as [-> | Hc];
      [apply mem_keys, E | apply H3, Hc].
  - intros k Hk. rewrite keys_upd in Hk.
    destruct (mem year (tally acc)); [apply H4, Hk|].
    apply in_app_or in Hk. destruct Hk as [Hk | [<- | []]];
      [apply H4, Hk | exact Hy].
Qed.

Lemma add_file_ok lk acc f : acc_ok acc -> acc_ok (add_file lk acc f).
Proof.
  intros (H1 & H2 & H3 & H4 & H5). unfold add_file.
  destruct (int (take 4 (file_name f))) eqn:Ey;
    [|repeat split; assumption].
  set (year := take 4 (file_name f)) in *.
  assert (G : forall rows a,
             In year (years_seen a) -> acc_ok a ->
             acc_ok (fold_left (add_row lk year) rows a)).
  { induction rows as [|row rows IH]; intros a Ha Hok; [exact Hok|].
    cbn [fold_left]. destruct (add_row_ok lk year a row Ha Hok).
    apply IH; assumption. }
  apply G; cbn [years_seen].
  - apply set_add_in. left. reflexivity.
  - unfold acc_ok. cbn [tally years_seen contests_seen].
    repeat split; try assumption.
    + apply set_add_nodup, H1.
    + intros k Hk. apply set_add_in. right. apply H4, Hk.
    + apply Forall_forall. intros y0 Hy0. apply set_add_in in Hy0.
      destruct Hy0 as [-> | Hy0]; [congruence|].
      rewrite Forall_forall in H5. apply H5, Hy0.
Qed.

Lemma accumulate_ok lk files : acc_ok (accumulate lk files).
Proof.
  unfold accumulate. apply fold_left_invariant.
  - intros a f. apply add_file_ok.
  - unfold acc_ok. cbn [tally years_seen contests_seen keys map].
    split; [constructor|]. split; [constructor|].
    split; [intros ? []|]. split; [intros ? []|]. constructor.
Qed.

(** X18: the list of years covered is strictly increasing and has
    [total_years] entries, each a text that [int] accepts; it contains every
    year key of [results_by_year]; and at most five contests are counted. *)
Theorem summary_counts :
  forall (records : list ShapeRecord) (files : list CsvFile),
    let p := build records files in
    total_years p = List.length (years_covered p)
    /\ increasing (years_covered p)
    /\ (forall y, In y (years_covered p) -> int y <> None)
    /\ (forall y, In y (keys (results_by_year p)) -> In y (years_covered p))
    /\ (total_contests p <= 5)%nat.
Proof.
  intros records files. cbv zeta.
  cbn [build total_years total_contests years_covered results_by_year].
  set (lk := load_namelsad20_lookup records).
  destruct (accumulate_ok lk files) as (H1 & H2 & H3 & H4 & H5).
  destruct (accumulate_wf lk files) as [Hk _].
  repeat split.
  - apply Permutation_length, StrSort.Permuted_sort.
  - apply sorted_increasing, H1.
  - intros y Hy. apply (proj1 (sorted_in _ _)) in Hy.
    rewrite Forall_forall in H5. apply H5, Hy.
  - intros y Hy. rewrite (results_of_tally_keys _ Hk) in Hy.
    apply (proj1 (sorted_in _ _)) in Hy.
    apply (proj2 (sorted_in _ _)), H4, Hy.
  - apply (NoDup_incl_length H2 H3).
Qed.

(** ** The keys of the tally *)

Lemma counted_canonical lk files e :
  In e (counted lk files) ->
  normalize_party (e_party e) = e_party e
  /\ e_party e <> ""
  /\ e_candidate e <> ""
  /\ contains "/" (e_candidate e) = false.
Proof.
  unfold counted. intros H. apply in_flat_map in H.
  destruct H as (f & _ & H). unfold file_entries in H.
  destruct (int (take 4 (file_name f))); [|destruct H].
  apply in_flat_map in H. destruct H as (row & _ & H).
  unfold row_entries in H.
  destruct (mem (row_contest row) CONTEST_FILTER); [|destruct H].
  destruct H as [<- | []]. cbn [e_party e_candidate].
  unfold row_party, row_candidate.
  destruct (normalize_party_fixed (field_or (party_field row) ""))
    as (P1 & P2).
  split; [exact P1|]. split; [exact P2|].
  pose proof (remove_running_mate_slash_free
                (strip (field_or (candidate row) ""))) as C1.
  unfold or_else.
  destruct (remove_running_mate (strip (field_or (candidate row) "")))
    as [|x r]; cbn [truthy].
  - split; [discriminate | reflexivity].
  - split; [discriminate | exact C1].
Qed.

(** X19: every bucket of the tally has a year that [int] accepts, a contest
    of [CONTEST_FILTER], a non-empty party code, and a candidate name that is
    non-empty and free of slashes; when the party fields of the input are of
    the ASCII range, the party code is a fixed point of [normalize_party]. *)
Theorem bucket_keys_are_canonical :
  forall (lk : dict (list string)) (files : list CsvFile)
         (y c co p cand : string),
    count_of (tally (accumulate lk files)) y c co p cand <> None ->
    int y <> None
    /\ mem c CONTEST_FILTER = true
    /\ p <> ""
    /\ cand <> "" /\ contains "/" cand = false
    /\ ((forall f row,
            In f files -> In row (file_rows f) ->
            is_ascii (field_or (party_field row) "") = true) ->
        normalize_party p = p).
Proof.
  intros lk files y c co p cand H.
  rewrite tally_of_counted in H.
  destruct (count_of_fold (counted lk files) [] y c co p cand) as [_ H2].
  cbv zeta in H2.
  destruct (filter (in_bucket y c co p cand) (counted lk files))
    as [|e rest] eqn:F.
  - exfalso. apply H, H2. split; reflexivity.
  - assert (He : In e (filter (in_bucket y c co p cand) (counted lk files)))
      by (rewrite F; left; reflexivity).
    apply filter_In in He. destruct He as [He Hb].
    unfold in_bucket in Hb. apply andb_true_iff in Hb. destruct Hb as [Hb E5].
    destruct (in_party_inv _ _ _ _ _ Hb) as (<- & <- & <- & <-).
    apply String.eqb_eq in E5. subst cand.
    destruct (counted_valid _ _ _ He) as (V1 & _ & V2).
    destruct (counted_canonical _ _ _ He) as (K1 & K2 & K3 & K4).
    repeat split; try assumption. intros _. exact K1.
Qed.

Lemma bucket_keys_are_canonical_witness :
  normalize_party "DEM" = "DEM" /\ contains "/" "Biden" = false.
Proof.
  assert (H : count_of (tally (accumulate (load_namelsad20_lookup md_records)
                                          sample_files))
                       "2020" "President" "Kent County" "DEM" "Biden" <> None)
    by (vm_compute; discriminate).
  assert (Hascii : forall f row,
             In f sample_files -> In row (file_rows f) ->
             is_ascii (field_or (party_field row) "") = true).
  { assert (F : Forall (fun f => Forall (fun row =>
                   is_ascii (field_or (party_field row) "") = true)
                   (file_rows f)) sample_files)
      by (repeat constructor).
    intros f row Hf Hr. rewrite Forall_forall in F.
    specialize (F f Hf). rewrite Forall_forall in F. exact (F row Hr). }
  destruct (bucket_keys_are_canonical _ _ _ _ _ _ _ H)
    as (_ & _ & _ & _ & H2 & H1).
  split; [exact (H1 Hascii) | exact H2].
Defined.

(** ** Vote fields and party keys, from the rows to the emitted document *)

(** A counted row comes from a row of an input file. *)
Lemma counted_from_row lk files e :
  In e (counted lk files) ->
  exists f row,
    In f files /\ In row (file_rows f)
    /\ e_party e = normalize_party (field_or (party_field row) "")
    /\ e_votes e = row_votes row.
Proof.
  unfold counted. intros H. apply in_flat_map in H.
  destruct H as (f & Hf & H). unfold file_entries in H.
  destruct (int (take 4 (file_name f))); [|destruct H].
  apply in_flat_map in H. destruct H as (row & Hr & H).
  unfold row_entries in H.
  destruct (mem (row_contest row) CONTEST_FILTER); [|destruct H].
  destruct H as [<- | []]. exists f, row. auto.
Qed.

Lemma mem_party_fold es : forall t y c co p,
  mem p (parties_at (fold_left add_entry es t) y c co)
  = (mem p (parties_at t y c co) || existsb (in_party y c co p) es)%bool.
Proof.
  induction es as [|e es IH]; intros t y c co p; cbn [fold_left existsb].
  - rewrite orb_false_r. reflexivity.
  - rewrite IH, parties_at_add. unfold in_party.
    destruct (in_county y c co e) eqn:E; cbn [andb]; [|reflexivity].
    unfold in_county in E.
    apply andb_true_iff in E. destruct E as [E E3].
    apply andb_true_iff in E. destruct E as [E1 E2].
    apply String.eqb_eq in E1, E2, E3. subst y c co.
    rewrite mem_upd.
    destruct (String.eqb (e_party e) p);
      destruct (mem p (parties_at t (e_year e) (e_contest e) (e_county e)));
      reflexivity.
Qed.

(** A party key of the tally is the party code of some input row. *)
Lemma party_key_from_row lk files y c co q :
  mem q (parties_at (tally (accumulate lk files)) y c co) = true ->
  exists f row,
    In f files /\ In row (file_rows f)
    /\ q = normalize_party (field_or (party_field row) "").
Proof.
  rewrite tally_of_counted, mem_party_fold.
  change (mem q (parties_at [] y c co)) with false. cbn [orb].
  intros H. apply existsb_exists in H. destruct H as (e & He & Hp).
  destruct (in_party_inv _ _ _ _ _ Hp) as (_ & _ & _ & <-).
  destruct (counted_from_row _ _ _ He) as (f & row & Hf & Hr & Hq & _).
  eauto.
Qed.

Lemma keys_totals (bp : PartyTally) :
  keys (map (fun pc : string * dict Z => (fst pc, sum (values (snd pc)))) bp)
  = keys bp.
Proof. unfold keys. rewrite map_map. reflexivity. Qed.

(** C5, as the script has it: a synonym of the table is mapped to its code,
    which has three capital letters; empty input is mapped to "OTH"; every
    other input is returned trimmed and in upper case, whatever its length.
    Every party key of the tally, and every party key of [all_parties] in an
    emitted record, is the value that [normalize_party] returns for the
    party field of some input row. *)
Theorem normalize_party_codes :
  (forall party : string,
      let p := lower (strip party) in
      (mem p PARTY_MAP = true ->
         get PARTY_MAP p = Some (normalize_party party)
         /\ three_letters (normalize_party party))
      /\ (p = "" -> normalize_party party = "OTH")
      /\ (mem p PARTY_MAP = false -> p <> "" ->
          normalize_party party = upper p))
  /\ (forall (lk : dict (list string)) (files : list CsvFile)
             (y c co q : string),
        mem q (parties_at (tally (accumulate lk files)) y c co) = true ->
        exists f row,
          In f files /\ In row (file_rows f)
          /\ q = normalize_party (field_or (party_field row) ""))
  /\ (forall (records : list ShapeRecord) (files : list CsvFile)
             (y c co q : string) (s : Summary),
        summary_of (results_by_year (build records files)) y c co = Some s ->
        In q (keys (all_parties s)) ->
        exists f row,
          In f files /\ In row (file_rows f)
          /\ q = normalize_party (field_or (party_field row) "")).
Proof.
  split; [|split].
  - intros party0. cbv zeta. unfold normalize_party, mem.
    rewrite or_else_empty.
    destruct (get PARTY_MAP (lower (strip party0))) as [c|] eqn:E.
    + repeat split; try discriminate.
      * pose proof PARTY_MAP_codes as F. rewrite Forall_forall in F.
        apply F, (get_values _ _ _ E).
      * intros H. rewrite H in E. discriminate.
    + repeat split; try discriminate.
      * intros ->. reflexivity.
      * intros _ H. destruct (lower (strip party0)); [congruence | reflexivity].
  - intros lk files y c co q. apply party_key_from_row.
  - intros records files y c co q s E Hq.
    cbn [results_by_year build] in E. apply summary_of_results in E. subst s.
    cbn [summarise all_parties] in Hq. rewrite keys_totals in Hq.
    apply mem_keys in Hq.
    apply (party_key_from_row (load_namelsad20_lookup records) files y c co q).
    exact Hq.
Qed.

Lemma normalize_party_codes_witness :
  three_letters (normalize_party " Democratic ")
  /\ normalize_party "  " = "OTH"
  /\ normalize_party "Constitution" = upper (lower (strip "Constitution"))
  /\ exists f row,
       In f sample_files /\ In row (file_rows f)
       /\ "LIB" = normalize_party (field_or (party_field row) "").
Proof.
  destruct normalize_party_codes as (P & T & _).
  split; [|split; [|split]].
  - exact (proj2 (proj1 (P " Democratic ") eq_refl)).
  - exact (proj1 (proj2 (P "  ")) eq_refl).
  - apply (proj2 (proj2 (P "Constitution"))); [reflexivity | discriminate].
  - apply (T (load_namelsad20_lookup md_records) sample_files
             "2020" "President" "Allegany County" "LIB").
    vm_compute. reflexivity.
Defined.

(** C3, as the script has it: a vote field that is not an integer literal
    counts as zero and its row is still added to its bucket; a field that is
    one is added to the bucket of its row with its sign; at the end of the
    run the count of a bucket is the sum of what its rows contribute.  The
    stored counts, the per-party totals and the total of every emitted
    record are therefore non-negative whenever no row carries a negative
    literal. *)
Theorem vote_counts_follow_the_parsed_field :
  forall (records : list ShapeRecord) (files : list CsvFile),
    let lk := load_namelsad20_lookup records in
    (forall row,
        int (strip (field_or (votes row) "0")) = None ->
        row_votes row = 0%Z
        /\ forall year acc,
             mem (row_contest row) CONTEST_FILTER = true ->
             count_of (tally (add_row lk year acc row)) year (row_contest row)
                      (row_county lk row) (row_party row) (row_candidate row)
             = Some (count_or_zero (tally acc) year (row_contest row)
                       (row_county lk row) (row_party row) (row_candidate row)))
    /\ (forall row v,
          int (strip (field_or (votes row) "0")) = Some v ->
          row_votes row = v
          /\ forall year acc,
               mem (row_contest row) CONTEST_FILTER = true ->
               count_of (tally (add_row lk year acc row)) year (row_contest row)
                        (row_county lk row) (row_party row) (row_candidate row)
               = Some (count_or_zero (tally acc) year (row_contest row)
                         (row_county lk row) (row_party row) (row_candidate row)
                       + v)%Z)
    /\ (forall y c co p cand,
          count_or_zero (tally (accumulate lk files)) y c co p cand
          = votes_of (filter (in_bucket y c co p cand) (counted lk files)))
    /\ ((forall f row,
            In f files -> In row (file_rows f) -> (0 <= row_votes row)%Z) ->
        (forall y c co p cand v,
            count_of (tally (accumulate lk files)) y c co p cand = Some v ->
            (0 <= v)%Z)
        /\ (forall y c co s,
              summary_of (results_by_year (build records files)) y c co = Some s ->
              (0 <= dem_votes s)%Z /\ (0 <= rep_votes s)%Z
              /\ (0 <= total_votes s)%Z
              /\ dict_all (fun n => (0 <= n)%Z) (all_parties s))).
Proof.
  intros records files lk.
  split; [|split; [|split]].
  - intros row E.
    assert (Hz : row_votes row = 0%Z) by (unfold row_votes; rewrite E; reflexivity).
    split; [exact Hz|].
    intros year acc Hm. rewrite (count_of_add_row lk year acc row Hm), Hz.
    f_equal. lia.
  - intros row v E.
    assert (Hv : row_votes row = v) by (unfold row_votes; rewrite E; reflexivity).
    split; [exact Hv|].
    intros year acc Hm. rewrite (count_of_add_row lk year acc row Hm), Hv.
    reflexivity.
  - intros y c co p cand. rewrite tally_of_counted.
    destruct (count_of_fold (counted lk files) [] y c co p cand) as [H1 _].
    cbv zeta in H1. rewrite H1. unfold count_or_zero, count_of. simpl.
    reflexivity.
  - intros Hrows. pose proof (accumulate_nonneg lk files Hrows) as Hn.
    split.
    + intros y c co p cand v. apply count_of_nonneg, Hn.
    + intros y c co s E. cbn [results_by_year build] in E.
      apply summary_of_results in E. subst s.
      apply summarise_nonneg.
      unfold tally_nonneg in Hn. fold lk.
      repeat (apply dict_all_get_or; [|constructor]). exact Hn.
Qed.

Lemma vote_counts_follow_the_parsed_field_witness :
  row_votes (csv_row "President" "Allegany" "Libertarian" "Jorgensen/Cohen" "n/a")
  = 0%Z
  /\ count_of
       (tally (add_row (load_namelsad20_lookup md_records) "2020"
                 {| tally := []; years_seen := []; contests_seen := [] |}
                 (csv_row "President" "Kent" "Democratic" "Biden/Harris" "5329")))
       "2020" "President" "Kent County" "DEM" "Biden"
     = Some 5329%Z
  /\ (0 <= 5329)%Z.
Proof.
  pose proof (vote_counts_follow_the_parsed_field md_records sample_files) as P.
  cbv zeta in P. destruct P as (Pa & Pb & _ & Pc).
  split; [|split].
  - apply (Pa (csv_row "President" "Allegany" "Libertarian" "Jorgensen/Cohen" "n/a")).
    reflexivity.
  - destruct (Pb (csv_row "President" "Kent" "Democratic" "Biden/Harris" "5329")
                 5329%Z eq_refl) as [_ H].
    exact (H "2020" {| tally := []; years_seen := []; contests_seen := [] |}
             eq_refl).
  - assert (Hrows : forall f row,
               In f sample_files -> In row (file_rows f) ->
               (0 <= row_votes row)%Z).
    { assert (F : Forall (fun f => Forall (fun row => (0 <= row_votes row)%Z)
                                          (file_rows f)) sample_files)
        by (repeat constructor; vm_compute; discriminate).
      intros f row Hf Hr. rewrite Forall_forall in F.
      specialize (F f Hf). rewrite Forall_forall in F. exact (F row Hr). }
    apply (proj1 (Pc Hrows) "2020" "President" "Kent County" "DEM" "Biden").
    vm_compute. reflexivity.
Defined.
